(** * Bank-statement ingestion: extractor, block parser, numeric normalizer

    A shallow embedding of the statement-parsing edge function: the raw text
    extractor [extractTextFromPDF], the statement parser [parseBCAStatement],
    the numeric normalizer [parseAmount] and the part of the request handler
    that obtains the text, with the properties the specification states
    about them.

    Conventions of the embedding:
    - a JavaScript string is the list of its UTF-16 code units ([JS.str]);
    - a JavaScript number is an IEEE-754 binary64 value, taken from the
      Standard Library's [spec_float] with [prec = 53] and [emax = 1024];
      integers that stay small (a day, a month, a year) are kept in [Z];
    - a regular expression is a value of a small AST, run by a backtracking
      matcher in the ECMAScript order (leftmost start, ordered alternation,
      greedy repetition);
    - a [while] loop over a cursor is a recursion over the lines or
      characters from the cursor on;
    - the clock read [new Date().getFullYear()] is the parameter
      [currentYear]; the answer of the recognition service and the number
      of arguments the engine takes in one call ([maxArguments]) are inputs
      of the handler.

    The definitions come first, module by module in the order of their use
    ([JS], [Num], [Regex], [Builtin], [Amount], [Statement], [Extractor],
    [Handler]), then the wording of the specification ([Spec]) and the
    inputs of the examples ([Inputs]); the lemmas and the theorems
    follow. *)

From Stdlib Require Import String Ascii ZArith NArith List Bool Lia.
From Stdlib Require Import DecimalString.
From Stdlib Require Import Floats.SpecFloat.
From Stdlib Require Floats.FloatOps Floats.PrimFloat Floats.FloatAxioms.
From Stdlib Require Strings.Byte.
From Stdlib Require QArith.
Import ListNotations.

(* ================================================================= *)
(** ** JavaScript strings *)

Module JS.

Open Scope N_scope.

(** One UTF-16 code unit. *)
Definition char := N.
Definition str := list char.

Definition ch (a : ascii) : char := N_of_ascii a.

(** A string literal of the source (ASCII only). *)
Definition lit (s : string) : str := map ch (list_ascii_of_string s).

Definition LF : char := 10.

Definition isDigit (c : char) : bool := (48 <=? c) && (c <=? 57).
Definition isUpper (c : char) : bool := (65 <=? c) && (c <=? 90).
Definition isLower (c : char) : bool := (97 <=? c) && (c <=? 122).

(** [\w] without the unicode flag: [A-Za-z0-9_]. *)
Definition isWordChar (c : char) : bool :=
  isUpper c || isLower c || isDigit c || (c =? 95).

(** WhiteSpace and LineTerminator of ECMAScript: the set of [\s] and of
    [String.prototype.trim]. *)
Definition isSpace (c : char) : bool :=
  (c =? 9) || (c =? 10) || (c =? 11) || (c =? 12) || (c =? 13) || (c =? 32)
  || (c =? 160) || (c =? 5760) || ((8192 <=? c) && (c <=? 8202))
  || (c =? 8232) || (c =? 8233) || (c =? 8239) || (c =? 8287)
  || (c =? 12288) || (c =? 65279).

Definition isHexDigit (c : char) : bool :=
  isDigit c || ((65 <=? c) && (c <=? 70)) || ((97 <=? c) && (c <=? 102)).

(** [toUpperCase] on the ASCII letters.  It is applied below only to code
    units that an ASCII-letter pattern has matched. *)
Definition upperAscii (c : char) : char := if isLower c then c - 32 else c.

Definition toUpperCase (s : str) : str := map upperAscii s.

Fixpoint str_eqb (a b : str) : bool :=
  match a, b with
  | [], [] => true
  | x :: a', y :: b' => (x =? y) && str_eqb a' b'
  | _, _ => false
  end.

(** [s.trim()] *)
Fixpoint trimStart (s : str) : str :=
  match s with
  | c :: s' => if isSpace c then trimStart s' else s
  | [] => []
  end.

Definition trimEnd (s : str) : str := rev (trimStart (rev s)).

Definition trim (s : str) : str := trimEnd (trimStart s).

(** [parts.join(sep)] *)
Fixpoint join (sep : str) (parts : list str) : str :=
  match parts with
  | [] => []
  | [p] => p
  | p :: ps => p ++ sep ++ join sep ps
  end.

(** [s.split(c)] for a one-character separator; also the result of
    [s.split(/\n/)] when [c] is the line feed. *)
Fixpoint splitOn (c : char) (s : str) : list str :=
  match s with
  | [] => [[]]
  | x :: s' =>
      if x =? c then [] :: splitOn c s'
      else match splitOn c s' with
           | p :: ps => (x :: p) :: ps
           | [] => [[x]]
           end
  end.

(** [s.replace(c, r)] with a string pattern: the first occurrence only. *)
Fixpoint replaceFirst (c : char) (r : str) (s : str) : str :=
  match s with
  | [] => []
  | x :: s' => if x =? c then r ++ s' else x :: replaceFirst c r s'
  end.

(** [s.replace(/c/g, r)] for a one-character pattern. *)
Fixpoint replaceAll (c : char) (r : str) (s : str) : str :=
  match s with
  | [] => []
  | x :: s' => if x =? c then r ++ replaceAll c r s' else x :: replaceAll c r s'
  end.

(** [s.replace(/ab/g, r)] for a two-character literal pattern [ab]:
    occurrences are replaced left to right, without overlap. *)
Fixpoint replaceAll2 (a b : char) (r : str) (s : str) : str :=
  match s with
  | [] => []
  | x :: s' =>
      match s' with
      | y :: s'' =>
          if (x =? a) && (y =? b) then r ++ replaceAll2 a b r s''
          else x :: replaceAll2 a b r s'
      | [] => [x]
      end
  end.

(** [(s.match(/c/g) || []).length] *)
Definition countChar (c : char) (s : str) : nat :=
  List.length (filter (fun x => x =? c) s).

(** [s.padStart(2, '0')] *)
Definition padStart2 (s : str) : str :=
  match s with
  | [] => [48; 48]
  | [c] => [48; c]
  | _ => s
  end.

Definition digitVal (c : char) : Z := Z.of_N (c - 48).

(** Value of a run of decimal digits, most significant first. *)
Definition digitsVal (ds : str) : Z :=
  fold_left (fun acc c => (10 * acc + digitVal c)%Z) ds 0%Z.

Fixpoint takeWhile (p : char -> bool) (s : str) : str :=
  match s with
  | c :: s' => if p c then c :: takeWhile p s' else []
  | [] => []
  end.

Fixpoint dropWhile (p : char -> bool) (s : str) : str :=
  match s with
  | c :: s' => if p c then dropWhile p s' else s
  | [] => []
  end.

End JS.

(* ================================================================= *)
(** ** JavaScript numbers *)

Module Num.

Open Scope Z_scope.

(** A Number is a binary64 value. *)
Definition num := spec_float.

Definition prec : Z := 53.
Definition emax : Z := 1024.

Definition zero : num := S754_zero false.
Definition NaN : num := S754_nan.

(** [x + y], [x < y], [x > y] on Numbers. *)
Definition add (x y : num) : num := SFadd prec emax x y.
Definition ltb (x y : num) : bool := SFltb x y.
Definition gtb (x y : num) : bool := SFltb y x.

(** The Number value of the decimal numeral [m * 10^-k] for [0 <= m]: the
    binary64 value nearest to it, ties to even.  This is the value of the
    literal [500000.00] ([ofDecimal 50000000 2]) and of [parseFloat] on the
    same digits. *)
Fixpoint pow10 (k : nat) : positive :=
  match k with
  | O => 1%positive
  | S k' => (10 * pow10 k')%positive
  end.

Definition ofDecimal (m : Z) (k : nat) : num :=
  match m with
  | Zpos p =>
      SFdiv prec emax (S754_finite false p 0) (S754_finite false (pow10 k) 0)
  | _ => zero
  end.

(** The Number value of an integer literal. *)
Definition ofZ (z : Z) : num := binary_normalize prec emax z 0 false.

(** ToBoolean on a Number: [NaN], [+0] and [-0] are falsy. *)
Definition truthy (x : num) : bool :=
  match x with
  | S754_zero _ | S754_nan => false
  | _ => true
  end.

(** [x || 0] *)
Definition orZero (x : num) : num := if truthy x then x else zero.

(** Left-to-right Number addition from [0]:
    [xs.reduce((s, x) => s + x, 0)]. *)
Definition sum (xs : list num) : num := fold_left add xs zero.

End Num.

(* ================================================================= *)
(** ** Regular expressions *)

Module Regex.

Import JS.
Open Scope N_scope.

(** The fragment of the pattern language the source uses.  Repetition is
    applied to character classes only, as in every pattern of the source. *)
Inductive regex : Type :=
| Eps
| Chr (c : char)                  (* a literal character *)
| Cls (p : char -> bool)          (* a class: [\d], [[:\s]], [[^)]] ... *)
| Seq (r1 r2 : regex)
| Alt (r1 r2 : regex)
| Star (p : char -> bool)         (* [[class]*], greedy *)
| Plus (p : char -> bool)         (* [[class]+], greedy *)
| Grp (i : nat) (r : regex)       (* the [i]-th capture group *)
| Bol                             (* [^] without the [m] flag *)
| Eol                             (* [$] without the [m] flag *)
| WordB.                          (* [\b] *)

(** A literal word, e.g. [PERIODE]. *)
Fixpoint word (s : str) : regex :=
  match s with
  | [] => Eps
  | [c] => Chr c
  | c :: s' => Seq (Chr c) (word s')
  end.

(** [r{n}] *)
Fixpoint times (n : nat) (r : regex) : regex :=
  match n with
  | O => Eps
  | S O => r
  | S n' => Seq r (times n' r)
  end.

(** [r1 r2 ... rn] *)
Fixpoint seqs (rs : list regex) : regex :=
  match rs with
  | [] => Eps
  | [r] => r
  | r :: rs' => Seq r (seqs rs')
  end.

(** [r1|r2|...|rn] *)
Fixpoint alts (rs : list regex) : regex :=
  match rs with
  | [] => Eps
  | [r] => r
  | r :: rs' => Alt r (alts rs')
  end.

Definition caps := list (nat * str).

Fixpoint group (i : nat) (cs : caps) : option str :=
  match cs with
  | [] => None
  | (j, s) :: cs' => if Nat.eqb i j then Some s else group i cs'
  end.

(** The matcher state: the code unit before the cursor (for [^] and [\b]),
    the input from the cursor on, and the captures so far. *)
Definition result := (str * caps)%type.
Definition cont := option char -> str -> caps -> option result.

Definition isWordOpt (c : option char) : bool :=
  match c with
  | Some x => isWordChar x
  | None => false
  end.

Section Matcher.

(** The [i] flag.  Without the [u] flag a code unit is canonicalized by
    [toUpperCase], except that nothing outside ASCII is mapped into ASCII;
    the patterns hold ASCII characters only, so comparing upper-cased ASCII
    decides the match.  The classes of the source's [i] patterns
    ([\s], [\d], [:], [,], [.]) hold no letter and are closed under
    canonicalization. *)
Variable ignoreCase : bool.

Definition chrEq (c x : char) : bool :=
  if ignoreCase then upperAscii c =? upperAscii x else c =? x.

(** Greedy [[class]*] followed by [k]: take one more code unit first, give
    it back when the rest fails. *)
Fixpoint star (p : char -> bool) (k : cont)
         (prev : option char) (s : str) (cs : caps) : option result :=
  match s with
  | x :: s' =>
      if p x then
        match star p k (Some x) s' cs with
        | Some res => Some res
        | None => k prev s cs
        end
      else k prev s cs
  | [] => k prev s cs
  end.

Fixpoint run (r : regex) (k : cont)
         (prev : option char) (s : str) (cs : caps) : option result :=
  match r with
  | Eps => k prev s cs
  | Chr c =>
      match s with
      | x :: s' => if chrEq c x then k (Some x) s' cs else None
      | [] => None
      end
  | Cls p =>
      match s with
      | x :: s' => if p x then k (Some x) s' cs else None
      | [] => None
      end
  | Seq r1 r2 => run r1 (run r2 k) prev s cs
  | Alt r1 r2 =>
      match run r1 k prev s cs with
      | Some res => Some res
      | None => run r2 k prev s cs
      end
  | Star p => star p k prev s cs
  | Plus p =>
      match s with
      | x :: s' => if p x then star p k (Some x) s' cs else None
      | [] => None
      end
  | Grp i r' =>
      run r' (fun prev' s' cs' =>
                k prev' s' ((i, firstn (List.length s - List.length s') s) :: cs'))
          prev s cs
  | Bol => match prev with None => k prev s cs | Some _ => None end
  | Eol => match s with [] => k prev s cs | _ :: _ => None end
  | WordB =>
      if xorb (isWordOpt prev) (isWordOpt (hd_error s)) then k prev s cs
      else None
  end.

(** One successful match: [mtext] is [match[0]], [mcaps] the groups,
    [mrest] the input after the match. *)
Record rmatch : Type := MkMatch { mtext : str; mcaps : caps; mrest : str }.

(** A match that starts exactly at the cursor. *)
Definition matchAt (r : regex) (prev : option char) (s : str) : option rmatch :=
  match run r (fun _ s' cs' => Some (s', cs')) prev s [] with
  | Some (s', cs') =>
      Some (MkMatch (firstn (List.length s - List.length s') s) cs' s')
  | None => None
  end.

(** The leftmost match at or after the cursor: [s.match(r)] and [r.exec(s)]
    for a pattern without the [g] flag. *)
Fixpoint searchFrom (r : regex) (prev : option char) (s : str) : option rmatch :=
  match matchAt r prev s with
  | Some m => Some m
  | None =>
      match s with
      | x :: s' => searchFrom r (Some x) s'
      | [] => None
      end
  end.

Definition search (r : regex) (s : str) : option rmatch := searchFrom r None s.

(** [r.test(s)] *)
Definition test (r : regex) (s : str) : bool :=
  match search r s with Some _ => true | None => false end.

(** All matches of a [g] pattern, as the loop
    [while ((m = r.exec(s)) !== null)] visits them: each search resumes
    where the previous match ended.  [skip] counts the code units of the
    last match still to pass.  The [g] patterns of the source never match
    the empty string, for which the loop of the source would not end. *)
Fixpoint execAllFrom (r : regex) (prev : option char) (s : str) (skip : nat)
  : list rmatch :=
  match skip with
  | S n =>
      match s with
      | x :: s' => execAllFrom r (Some x) s' n
      | [] => []
      end
  | O =>
      match matchAt r prev s with
      | Some m =>
          m :: match s with
               | x :: s' => execAllFrom r (Some x) s' (List.length (mtext m) - 1)
               | [] => []
               end
      | None =>
          match s with
          | x :: s' => execAllFrom r (Some x) s' 0
          | [] => []
          end
      end
  end.

Definition execAll (r : regex) (s : str) : list rmatch := execAllFrom r None s 0.

End Matcher.

(** [m[i]] of a match; a group that took part in the match is a string. *)
Definition grp (i : nat) (m : rmatch) : str :=
  match group i (mcaps m) with Some s => s | None => [] end.

End Regex.

(* ================================================================= *)
(** ** Built-in functions the source calls *)

Module Builtin.

Import JS.
Open Scope N_scope.

(** Integer-valued Numbers ([parseInt] results, the year, a day of the
    month) are kept as integers; [None] is [NaN].  Every such value of the
    source has at most four digits or is the calendar year, far below 2^53,
    so no rounding is involved. *)
Definition jsint := option Z.

(** [x < y] and [x > y] with a literal on the right: false on [NaN]. *)
Definition int_ltb (x : jsint) (y : Z) : bool :=
  match x with Some v => (v <? y)%Z | None => false end.
Definition int_gtb (x : jsint) (y : Z) : bool :=
  match x with Some v => (y <? v)%Z | None => false end.
Definition int_geb (x : jsint) (y : Z) : bool :=
  match x with Some v => (y <=? v)%Z | None => false end.
Definition int_leb (x : jsint) (y : Z) : bool :=
  match x with Some v => (v <=? y)%Z | None => false end.

(** [String(x)] for an integer-valued Number. *)
Definition intToString (x : jsint) : str :=
  match x with
  | Some v => lit (NilZero.string_of_int (Z.to_int v))
  | None => lit "NaN"
  end.

Definition radixDigitVal (c : char) : N :=
  if isDigit c then c - 48
  else if isUpper c then c - 55
  else if isLower c then c - 87
  else 99.

Definition isRadixDigit (radix : N) (c : char) : bool :=
  radixDigitVal c <? radix.

Definition radixVal (radix : N) (ds : str) : Z :=
  fold_left (fun acc c => (Z.of_N radix * acc + Z.of_N (radixDigitVal c))%Z) ds 0%Z.

(** [parseInt(s)] ([radix = None]) and [parseInt(s, 16)]: leading white
    space, a sign, a [0x] prefix for radix 16, then the longest run of
    digits of the radix; [NaN] when that run is empty. *)
Definition parseInt (s : str) (radix : option N) : jsint :=
  let s1 := trimStart s in
  let '(neg, s2) :=
    match s1 with
    | c :: s' =>
        if c =? ch "-" then (true, s')
        else if c =? ch "+" then (false, s')
        else (false, s1)
    | [] => (false, s1)
    end in
  let hexPrefix :=
    match s2 with
    | a :: b :: _ => (a =? ch "0") && ((b =? ch "x") || (b =? ch "X"))
    | _ => false
    end in
  let strip :=
    hexPrefix && match radix with None => true | Some r => r =? 16 end in
  let R := if strip then 16 else match radix with None => 10 | Some r => r end in
  let s3 := if strip then skipn 2 s2 else s2 in
  match takeWhile (isRadixDigit R) s3 with
  | [] => None
  | ds => Some (if neg then (- radixVal R ds)%Z else radixVal R ds)
  end.

(** [parseFloat(s)] on a string of digits, commas and periods, which is all
    [parseAmount] passes to it: the longest prefix of the form
    [digits], [digits.digits], [digits.] or [.digits]; [NaN] when that
    prefix holds no digit.  Signs, exponents, [Infinity] and leading white
    space cannot occur in such a string. *)
Definition parseFloat (s : str) : Num.num :=
  let ip := takeWhile isDigit s in
  let fp :=
    match dropWhile isDigit s with
    | c :: s' => if c =? ch "." then takeWhile isDigit s' else []
    | [] => []
    end in
  match ip ++ fp with
  | [] => Num.NaN
  | ds => Num.ofDecimal (digitsVal ds) (List.length fp)
  end.

(** [new Date(year, month, 0).getDate()]: the last day of the [month]-th
    month (1-based).  A year from 0 to 99 is read as 1900 + year. *)
Definition isLeap (y : Z) : bool :=
  (((y mod 4 =? 0) && negb (y mod 100 =? 0)) || (y mod 400 =? 0))%Z.

Definition lastDayOfMonth (year : jsint) (month : Z) : jsint :=
  match year with
  | None => None
  | Some y =>
      let y' := if ((0 <=? y) && (y <=? 99))%Z then (1900 + y)%Z else y in
      Some (if (month =? 2)%Z then (if isLeap y' then 29 else 28)
            else if ((month =? 4) || (month =? 6) || (month =? 9) || (month =? 11))%Z
                 then 30 else 31)%Z
  end.

End Builtin.

(* ================================================================= *)
(** ** The numeric normalizer: [parseAmount] *)

Module Amount.

Import JS Builtin.
Open Scope N_scope.

(** The class [[0-9,\.]]. *)
Definition isAmountChar (c : char) : bool :=
  isDigit c || (c =? ch ",") || (c =? ch ".").

Definition parseAmount (s : str) : Num.num :=
  match s with
  | [] => Num.zero                                  (* if (!str) return 0 *)
  | _ =>
      let cleaned := filter isAmountChar s in
      let dots := countChar (ch ".") cleaned in
      let commas := countChar (ch ",") cleaned in
      let cleaned :=
        if (1 <? dots)%nat then
          replaceFirst (ch ",") (lit ".") (replaceAll (ch ".") [] cleaned)
        else if (1 <? commas)%nat then
          replaceAll (ch ",") [] cleaned
        else if (dots =? 1)%nat && (commas =? 1)%nat then
          replaceFirst (ch ",") (lit ".") (replaceAll (ch ".") [] cleaned)
        else if (commas =? 1)%nat && (dots =? 0)%nat then
          replaceFirst (ch ",") (lit ".") cleaned
        else cleaned in
      Num.orZero (parseFloat cleaned)
  end.

End Amount.

(* ================================================================= *)
(** ** The statement parser: [parseBCAStatement] *)

Module Statement.

Import JS Builtin Regex Amount.
Open Scope N_scope.

Record ParsedTransaction : Type := MkTransaction {
  date : str;
  description : str;
  reference : str;
  branchCode : str;
  debitAmount : Num.num;
  creditAmount : Num.num;
  balance : option Num.num          (* [None] is [null] *)
}.

Record ParsedStatement : Type := MkStatement {
  period : str;
  startDate : str;
  endDate : str;
  openingBalance : Num.num;
  closingBalance : Num.num;
  totalDebits : Num.num;
  totalCredits : Num.num;
  transactions : list ParsedTransaction
}.

Definition isColonOrSpace (c : char) : bool := (c =? ch ":") || isSpace c.

Definition monthNames : list string :=
  ["JANUARI"; "FEBRUARI"; "MARET"; "APRIL"; "MEI"; "JUNI";
   "JULI"; "AGUSTUS"; "SEPTEMBER"; "OKTOBER"; "NOVEMBER"; "DESEMBER"]%string.

(** [/PERIODE[:\s]+(JANUARI|...|DESEMBER)[\s]+(\d{4})/i] *)
Definition periodRe : regex :=
  seqs [word (lit "PERIODE"); Plus isColonOrSpace;
        Grp 1 (alts (map (fun m => word (lit m)) monthNames));
        Plus isSpace; Grp 2 (times 4 (Cls isDigit))].

Definition monthMap : list (str * Z) :=
  [(lit "JANUARI", 1); (lit "FEBRUARI", 2); (lit "MARET", 3); (lit "APRIL", 4);
   (lit "MEI", 5); (lit "JUNI", 6); (lit "JULI", 7); (lit "AGUSTUS", 8);
   (lit "SEPTEMBER", 9); (lit "OKTOBER", 10); (lit "NOVEMBER", 11);
   (lit "DESEMBER", 12)]%Z.

Fixpoint lookup (key : str) (m : list (str * Z)) : option Z :=
  match m with
  | [] => None
  | (k, v) :: m' => if str_eqb k key then Some v else lookup key m'
  end.

(** [/SALDO[\s]+AWAL[:\s]*([\d,\.]+)/i] and the same with [AKHIR]. *)
Definition saldoRe (w : string) : regex :=
  seqs [word (lit "SALDO"); Plus isSpace; word (lit w);
        Star isColonOrSpace; Grp 1 (Plus isAmountChar)].

(** [/^(\d{2})\/(\d{2})$/] *)
Definition dateRe : regex :=
  seqs [Bol; Grp 1 (times 2 (Cls isDigit)); Chr (ch "/");
        Grp 2 (times 2 (Cls isDigit)); Eol].

(** [/^\d{2}\/\d{2}$/] *)
Definition nextDateRe : regex :=
  seqs [Bol; times 2 (Cls isDigit); Chr (ch "/"); times 2 (Cls isDigit); Eol].

(** [/TANGGAL|KETERANGAN|CABANG|MUTASI|SALDO|Halaman|Bersambung/i] *)
Definition headerRe : regex :=
  alts (map (fun w => word (lit w))
            ["TANGGAL"; "KETERANGAN"; "CABANG"; "MUTASI"; "SALDO"; "Halaman";
             "Bersambung"]%string).

(** [/([\d,\.]+)/g] *)
Definition amountPattern : regex := Grp 1 (Plus isAmountChar).

(** [/\bCR\b/i] *)
Definition creditRe : regex := seqs [WordB; Chr (ch "C"); Chr (ch "R"); WordB].

Definition isRefChar (c : char) : bool := isWordChar c || (c =? ch "/").

(** [/\d{4}\/[\w\/]+/] *)
Definition refRe : regex :=
  seqs [times 4 (Cls isDigit); Chr (ch "/"); Plus isRefChar].

(** The seek-date test of the outer loop (lines 412-425): the day and the
    month when a block starts at [line], [None] when the cursor just moves
    on. *)
Definition dateOfLine (line : str) : option (jsint * jsint) :=
  match search false dateRe line with
  | None => None
  | Some dateMatch =>
      let day := parseInt (grp 1 dateMatch) None in
      let mon := parseInt (grp 2 dateMatch) None in
      if int_ltb day 1 || int_gtb day 31 || int_ltb mon 1 || int_gtb mon 12
      then None
      else Some (day, mon)
  end.

(** The stop test of the inner loop (lines 435-442). *)
Definition isNextDate (nextLine : str) : bool :=
  match search false nextDateRe nextLine with
  | None => false
  | Some _ =>
      let parts := splitOn (ch "/") nextLine in
      let testDay := parseInt (nth 0 parts []) None in
      let testMon := parseInt (nth 1 parts []) None in
      int_geb testDay 1 && int_leb testDay 31
      && int_geb testMon 1 && int_leb testMon 12
  end.

(** The amounts of a block (lines 467-476). *)
Definition keepAmount (amt : Num.num) : bool :=
  Num.gtb amt Num.zero && Num.ltb amt (Num.ofZ 100000000000).

Definition numericTokens (textForAmounts : str) : list str :=
  map (grp 1) (execAll false amountPattern textForAmounts).

Definition blockAmounts (textForAmounts : str) : list Num.num :=
  filter keepAmount (map parseAmount (numericTokens textForAmounts)).

(** What the loop body does with a collected block (lines 452-508): the
    transaction it pushes, or [None] on the three [continue] paths. *)
Definition processBlock (year day mon : jsint) (descriptionLines : list str)
  : option ParsedTransaction :=
  let fullDescription := join [LF] descriptionLines in
  if test true headerRe fullDescription then None
  else if (List.length (trim fullDescription) <? 3)%nat then None
  else
    let textForAmounts := join (lit " ") descriptionLines in
    let amounts := blockAmounts textForAmounts in
    match amounts with
    | [] => None
    | amount :: _ =>
        let isCredit := test true creditRe textForAmounts in
        let balance :=
          if (1 <? List.length amounts)%nat then Some (last amounts Num.zero)
          else None in
        let reference :=
          match search false refRe textForAmounts with
          | Some refMatch => mtext refMatch
          | None => []
          end in
        let fullDate :=
          intToString year ++ lit "-" ++ padStart2 (intToString mon)
                      ++ lit "-" ++ padStart2 (intToString day) in
        Some {| date := fullDate;
                description := fullDescription;
                reference := reference;
                branchCode := [];
                debitAmount := if isCredit then Num.zero else amount;
                creditAmount := if isCredit then amount else Num.zero;
                balance := balance |}
    end.

Definition pushBlock (year day mon : jsint) (descriptionLines : list str)
           (transactions : list ParsedTransaction) : list ParsedTransaction :=
  match processBlock year day mon descriptionLines with
  | Some t => transactions ++ [t]
  | None => transactions
  end.

(** The inner loop on its own (lines 428-450): from the buffer so far and
    the lines from [j] on to the collected lines and the lines left for the
    outer loop. *)
Fixpoint collectBlock (descriptionLines : list str) (ls : list str)
  : list str * list str :=
  match ls with
  | [] => (descriptionLines, [])
  | nextLine :: ls' =>
      if isNextDate nextLine then (descriptionLines, ls)
      else
        let descriptionLines := descriptionLines ++ [nextLine] in
        if (50 <? List.length descriptionLines)%nat then (descriptionLines, ls')
        else collectBlock descriptionLines ls'
  end.

(** The main scan (lines 408-520).  The cursor [i] is the list of lines
    from [i] on; the inner loop over [j] is the local [collect], which hands
    the lines from [j] on back to the outer loop. *)
Fixpoint scan (year : jsint) (lines : list str)
         (transactions : list ParsedTransaction) {struct lines}
  : list ParsedTransaction :=
  match lines with
  | [] => transactions
  | line :: rest =>
      match dateOfLine line with
      | None => scan year rest transactions
      | Some (day, mon) =>
          (fix collect (descriptionLines : list str) (ls : list str) {struct ls}
             : list ParsedTransaction :=
             match ls with
             | [] => pushBlock year day mon descriptionLines transactions
             | nextLine :: ls' =>
                 if isNextDate nextLine then
                   scan year ls (pushBlock year day mon descriptionLines transactions)
                 else
                   let descriptionLines := descriptionLines ++ [nextLine] in
                   if (50 <? List.length descriptionLines)%nat then
                     scan year ls'
                          (pushBlock year day mon descriptionLines transactions)
                   else collect descriptionLines ls'
             end) [] rest
      end
  end.

(** [text.split(/\n/).map(l => l.trim()).filter(l => l.length > 0)] *)
Definition linesOf (text : str) : list str :=
  filter (fun l => (0 <? List.length l)%nat) (map trim (splitOn LF text)).

Definition parseBCAStatement (currentYear : Z) (text : str) (currency : str)
  : ParsedStatement :=
  let periodMatch := search true periodRe text in
  let period :=
    match periodMatch with
    | Some m => grp 1 m ++ lit " " ++ grp 2 m
    | None => []
    end in
  let year : jsint :=
    match periodMatch with
    | Some m => parseInt (grp 2 m) None
    | None => Some currentYear
    end in
  let month : Z :=
    match periodMatch with
    | Some m =>
        match lookup (toUpperCase (grp 1 m)) monthMap with
        | Some v => v
        | None => 1
        end
    | None => 1
    end%Z in
  let openingBalance :=
    match search true (saldoRe "AWAL") text with
    | Some m => parseAmount (grp 1 m)
    | None => Num.zero
    end in
  let closingBalance :=
    match search true (saldoRe "AKHIR") text with
    | Some m => parseAmount (grp 1 m)
    | None => Num.zero
    end in
  let startDate :=
    intToString year ++ lit "-" ++ padStart2 (intToString (Some month))
                ++ lit "-01" in
  let lastDay := lastDayOfMonth year month in
  let endDate :=
    intToString year ++ lit "-" ++ padStart2 (intToString (Some month))
                ++ lit "-" ++ padStart2 (intToString lastDay) in
  let transactions := scan year (linesOf text) [] in
  {| period := period;
     startDate := startDate;
     endDate := endDate;
     openingBalance := openingBalance;
     closingBalance := closingBalance;
     totalDebits :=
       fold_left (fun s t => Num.add s (debitAmount t)) transactions Num.zero;
     totalCredits :=
       fold_left (fun s t => Num.add s (creditAmount t)) transactions Num.zero;
     transactions := transactions |}.

End Statement.

(* ================================================================= *)
(** ** The raw text extractor: [extractTextFromPDF] *)

Module Extractor.

Import JS Builtin Regex.
Open Scope N_scope.

(** *** [new TextDecoder('utf-8', { fatal: false }).decode(bytes)]

    The decoder of the Encoding standard: malformed input yields U+FFFD and
    never an error; a leading byte order mark is dropped. *)
Record decoder : Type := MkDecoder {
  codePoint : N;
  bytesSeen : N;
  bytesNeeded : N;
  lowerBoundary : N;
  upperBoundary : N
}.

Definition idle : decoder := MkDecoder 0 0 0 128 191.

(** A byte that arrives when no sequence is open. *)
Definition lead (b : N) : decoder * list N :=
  if b <=? 127 then (idle, [b])
  else if (194 <=? b) && (b <=? 223) then
    (MkDecoder (N.land b 31) 0 1 128 191, [])
  else if (224 <=? b) && (b <=? 239) then
    (MkDecoder (N.land b 15) 0 2
               (if b =? 224 then 160 else 128) (if b =? 237 then 159 else 191), [])
  else if (240 <=? b) && (b <=? 244) then
    (MkDecoder (N.land b 7) 0 3
               (if b =? 240 then 144 else 128) (if b =? 244 then 143 else 191), [])
  else (idle, [65533]).

Definition feed (d : decoder) (b : N) : decoder * list N :=
  if bytesNeeded d =? 0 then lead b
  else if negb ((lowerBoundary d <=? b) && (b <=? upperBoundary d)) then
    (* the open sequence is dropped and the byte is read again *)
    let '(d', out) := lead b in (d', 65533 :: out)
  else
    let cp := N.lor (N.shiftl (codePoint d) 6) (N.land b 63) in
    if bytesSeen d + 1 =? bytesNeeded d then (idle, [cp])
    else (MkDecoder cp (bytesSeen d + 1) (bytesNeeded d) 128 191, []).

Fixpoint codePoints (d : decoder) (bytes : list N) : list N :=
  match bytes with
  | [] => if bytesNeeded d =? 0 then [] else [65533]
  | b :: bytes' => let '(d', out) := feed d b in out ++ codePoints d' bytes'
  end.

(** A code point as UTF-16 code units. *)
Definition codeUnits (cp : N) : str :=
  if cp <? 65536 then [cp]
  else [55296 + N.shiftr (cp - 65536) 10; 56320 + N.land (cp - 65536) 1023].

Definition decodeUtf8 (pdfData : list Byte.byte) : str :=
  let cps := codePoints idle (map Byte.to_N pdfData) in
  let cps := match cps with
             | c :: cps' => if c =? 65279 then cps' else cps
             | [] => []
             end in
  flat_map codeUnits cps.

(** *** Method 1: text in parentheses *)

Definition notCloseParen (c : char) : bool := negb (c =? ch ")").

(** [/\(([^)]+)\)/g] *)
Definition textPattern : regex :=
  seqs [Chr (ch "("); Grp 1 (Plus notCloseParen); Chr (ch ")")].

Definition backslash : char := 92.

(** The chain of six [replace] calls (lines 319-325). *)
Definition unescape (text : str) : str :=
  let text := replaceAll2 backslash (ch "n") [LF] text in
  let text := replaceAll2 backslash (ch "r") [] text in
  let text := replaceAll2 backslash (ch "t") (lit " ") text in
  let text := replaceAll2 backslash backslash [backslash] text in
  let text := replaceAll2 backslash (ch "(") (lit "(") text in
  replaceAll2 backslash (ch ")") (lit ")") text.

Definition literalBlocks (raw : str) : list str :=
  map (fun m => unescape (grp 1 m)) (execAll false textPattern raw).

(** *** Method 2: hex-encoded text *)

(** [/<([0-9A-Fa-f]+)>/g] *)
Definition hexPattern : regex :=
  seqs [Chr (ch "<"); Grp 1 (Plus isHexDigit); Chr (ch ">")].

(** One turn of the loop over byte pairs (lines 343-350): what is appended
    to [decoded]. *)
Definition decodeByte (byte : jsint) : str :=
  if int_geb byte 32 && int_leb byte 126 then
    match byte with Some v => [Z.to_N v] | None => [] end   (* fromCharCode *)
  else if match byte with Some 10%Z => true | _ => false end then [LF]
  else if match byte with Some 32%Z => true | _ => false end then lit " "
  else [].

(** [for (let i = 0; i < hexStr.length; i += 2)], for [hexStr] of even
    length. *)
Fixpoint decodeHex (hexStr : str) : str :=
  match hexStr with
  | a :: b :: hexStr' => decodeByte (parseInt [a; b] (Some 16)) ++ decodeHex hexStr'
  | _ => []
  end.

(** [hexMatch[1]] of every match. *)
Definition hexRuns (raw : str) : list str :=
  map (grp 1) (execAll false hexPattern raw).

Definition hexBlocks (raw : str) : list str :=
  flat_map
    (fun hexMatch =>
       let hexStr := grp 1 hexMatch in
       if Nat.even (List.length hexStr) then
         let decoded := decodeHex hexStr in
         match trim decoded with
         | [] => []                        (* if (decoded.trim()) *)
         | _ => [decoded]
         end
       else [])
    (execAll false hexPattern raw).

Definition extractTextFromPDF (pdfData : list Byte.byte) : str :=
  let raw := decodeUtf8 pdfData in
  let parts := literalBlocks raw in
  let parts :=
    match parts with
    | [] => hexBlocks raw                 (* if (parts.length === 0) *)
    | _ => parts
    end in
  join [LF] parts.

End Extractor.

(* ================================================================= *)
(** ** Text acquisition in the request handler *)

Module Handler.

Import JS.
Open Scope N_scope.

(** A call either returns or throws an [Error] with a message. *)
Inductive outcome (A : Type) : Type :=
| Ok (a : A)
| Throw (message : str).
Arguments Ok {A} a.
Arguments Throw {A} message.

(** What the recognition service answered to the one request of
    [extractTextWithOpenAI]. *)
Inductive ServiceReply : Type :=
| Rejected (message : str)                 (* [fetch] or [response.json()] threw *)
| NotOk (errorText : str)                  (* [!response.ok], with [response.text()] *)
| Body (content : option (option str)).    (* [None]: no [choices[0].message];
                                              [Some None]: [content] is null or
                                              undefined *)

Fixpoint startsWith (p s : str) : bool :=
  match p, s with
  | [], _ => true
  | x :: p', y :: s' => (x =? y) && startsWith p' s'
  | _ :: _, [] => false
  end.

(** [s.includes(p)] *)
Fixpoint includes (p s : str) : bool :=
  startsWith p s || match s with _ :: s' => includes p s' | [] => false end.

(** [extractTextWithOpenAI] (lines 233-307).  Line 234 spreads the bytes of
    the file into the arguments of one call, [String.fromCharCode(...fileData)];
    the engine accepts [maxArguments] arguments and throws a [RangeError]
    beyond, before any request is made.  The characters are bytes, on which
    [btoa] does not fail.  The request itself (the base64 text, the prompt)
    produces no part of the result; [reply] is the answer to it. *)
Definition extractTextWithOpenAI (maxArguments : nat) (fileData : list Byte.byte)
           (reply : ServiceReply) : outcome str :=
  if (maxArguments <? List.length fileData)%nat then
    Throw (lit "Maximum call stack size exceeded")
  else
    match reply with
    | Rejected message => Throw message
    | NotOk errorText =>
        if includes (lit "pdf") errorText || includes (lit "format") errorText then
          Throw (lit "OpenAI cannot process PDFs directly. Please upload as PNG/JPG image instead, or use Excel export.")
        else Throw (lit "OpenAI OCR service failed: " ++ firstn 200 errorText)
    | Body None => Throw (lit "OpenAI returned no results")
    | Body (Some None) =>
        Throw (lit "OpenAI could not extract sufficient text from this file")
    | Body (Some (Some extractedText)) =>
        if (List.length extractedText =? 0)%nat
           || (List.length extractedText <? 50)%nat then
          Throw (lit "OpenAI could not extract sufficient text from this file")
        else Ok extractedText
    end.

(** Lines 71-98 of the handler: where [text] comes from.  [openaiKey] is
    [Deno.env.get('OPENAI_API_KEY')]. *)
Definition acquireText (maxArguments : nat) (isImageFile useOCR : bool)
           (openaiKey : option str) (reply : ServiceReply)
           (pdfData : list Byte.byte) : outcome str :=
  if isImageFile || useOCR then
    match openaiKey with
    | None | Some [] =>
        Throw (lit "OCR is not configured. Please use Excel export instead.")
    | Some _ =>
        match extractTextWithOpenAI maxArguments pdfData reply with
        | Throw message => Throw message
        | Ok text =>
            if (List.length text <? 100)%nat then
              Throw (lit "OCR failed to extract sufficient text. File may be corrupt or empty.")
            else Ok text
        end
    end
  else Ok (Extractor.extractTextFromPDF pdfData).

(** The handler up to the parse (lines 71-119).  Past it the request goes
    on to the preview or to the store, which are outside this model. *)
Inductive response : Type :=
| ErrorResponse (status : Z) (error : str)
| NoTransactions (status : Z)
| Parsed (text : str) (parsed : Statement.ParsedStatement).

Definition handleUpload (currentYear : Z) (maxArguments : nat)
           (isImageFile useOCR : bool)
           (openaiKey : option str) (reply : ServiceReply)
           (pdfData : list Byte.byte) (currency : str) : response :=
  match acquireText maxArguments isImageFile useOCR openaiKey reply pdfData with
  | Throw message =>
      (* catch (error): error.message || 'Failed to parse PDF', status 400 *)
      ErrorResponse 400 (match message with
                         | [] => lit "Failed to parse PDF"
                         | _ => message
                         end)
  | Ok text =>
      let parsed := Statement.parseBCAStatement currentYear text currency in
      match Statement.transactions parsed with
      | [] => NoTransactions 400
      | _ => Parsed text parsed
      end
  end.

End Handler.

(* ================================================================= *)
(** ** The specification's wording, as definitions to compare with *)

Module Spec.

Import JS.
Open Scope N_scope.

(** "A two-digit/two-digit pair DD/MM with day in [1,31] and month in
    [1,12]": the day and the month of such a line. *)
Definition twoDigits (a b : char) : Z := (10 * digitVal a + digitVal b)%Z.

Definition dateBoundary (line : str) : option (Z * Z) :=
  match line with
  | [a; b; s; d; e] =>
      if isDigit a && isDigit b && (s =? ch "/") && isDigit d && isDigit e
         && (1 <=? twoDigits a b)%Z && (twoDigits a b <=? 31)%Z
         && (1 <=? twoDigits d e)%Z && (twoDigits d e <=? 12)%Z
      then Some (twoDigits a b, twoDigits d e)
      else None
  | _ => None
  end.

(** "The token CR appears as a whole word, case-insensitively": a [C] or
    [c] followed by an [R] or [r], with no word character right before or
    right after the pair. *)
Definition lastOf (s : str) : option char :=
  match rev s with c :: _ => Some c | [] => None end.

Definition wholeWordCR (s : str) : Prop :=
  exists pre c r post,
    s = pre ++ c :: r :: post
    /\ (c = ch "C" \/ c = ch "c") /\ (r = ch "R" \/ r = ch "r")
    /\ Regex.isWordOpt (lastOf pre) = false
    /\ Regex.isWordOpt (hd_error post) = false.

(** "A numeric token (digits plus comma/period)": the maximal runs of such
    characters, left to right.  [cur] is the run being read, reversed. *)
Fixpoint runsFrom (p : char -> bool) (cur : str) (s : str) : list str :=
  match s with
  | [] => match cur with [] => [] | _ => [rev cur] end
  | x :: s' =>
      if p x then runsFrom p (x :: cur) s'
      else match cur with
           | [] => runsFrom p [] s'
           | _ => rev cur :: runsFrom p [] s'
           end
  end.

Definition maximalRuns (p : char -> bool) (s : str) : list str := runsFrom p [] s.

(** "Strictly between 0 and 100,000,000,000". *)
Definition strictlyBetween (amt : Num.num) : bool :=
  Num.ltb Num.zero amt && Num.ltb amt (Num.ofDecimal 100000000000 0).

(** "Keeping printable ASCII (32-126) verbatim, mapping byte value 10 to a
    line break, discarding all other byte values". *)
Definition hexVal (c : char) : N :=
  if isDigit c then c - 48 else if isUpper c then c - 55 else c - 87.

Definition keptByte (b : N) : str :=
  if (32 <=? b) && (b <=? 126) then [b]
  else if b =? 10 then [LF]
  else [].

Fixpoint decodeRun (hex : str) : str :=
  match hex with
  | a :: b :: hex' => keptByte (16 * hexVal a + hexVal b) ++ decodeRun hex'
  | _ => []
  end.

(** Strategy B as the specification words it: every even-length run is
    decoded and the decoded blocks are joined with line breaks. *)
Definition evenLength (hex : str) : bool := Nat.even (List.length hex).

Definition statedHexText (runs : list str) : str :=
  join [LF] (map decodeRun (filter evenLength runs)).

(** A block that is empty or white space only. *)
Definition isBlank (s : str) : bool := forallb isSpace s.

(** The shape "two digits, a slash, two digits", with the four digits. *)
Definition twoSlashTwo (line : str) : option (char * char * char * char) :=
  match line with
  | [a; b; s; d; e] =>
      if isDigit a && isDigit b && (s =? ch "/") && isDigit d && isDigit e
      then Some (a, b, d, e) else None
  | _ => None
  end.

(** [CR] as a whole word right at the cursor, [prev] being the character
    before it. *)
Definition crAt (prev : option char) (s : str) : Prop :=
  exists c r post,
    s = c :: r :: post
    /\ (c = ch "C" \/ c = ch "c") /\ (r = ch "R" \/ r = ch "r")
    /\ Regex.isWordOpt prev = false /\ Regex.isWordOpt (hd_error post) = false.

(** The character before the cursor once [pre] has been passed. *)
Definition lastOr (prev : option char) (pre : str) : option char :=
  match lastOf pre with Some y => Some y | None => prev end.

(** A line holds no line break. *)
Definition noLF (s : str) : Prop := Forall (fun c => c <> LF) s.

(** The block text joined by spaces is the description with its line
    breaks turned into spaces. *)
Definition lfToSpace (c : char) : char := if c =? LF then ch " " else c.

(** "Sum ... using exact decimal summation": the value of a finite Number
    as a rational, the sum of such values with no rounding in between, and
    the test that a total is that sum. *)
Definition exactValue (x : Num.num) : option QArith_base.Q :=
  match x with
  | S754_zero _ => Some (QArith_base.Qmake 0 1)
  | S754_finite sgn m e =>
      Some (QArith_base.Qmult
              (QArith_base.Qmake (if sgn then Zneg m else Zpos m) 1)
              (QArith_base.Qpower (QArith_base.Qmake 2 1) e))
  | _ => None
  end.

Fixpoint exactSum (xs : list Num.num) : option QArith_base.Q :=
  match xs with
  | [] => Some (QArith_base.Qmake 0 1)
  | x :: xs' =>
      match exactValue x, exactSum xs' with
      | Some a, Some b => Some (QArith_base.Qplus a b)
      | _, _ => None
      end
  end.

Definition isExactSum (total : Num.num) (xs : list Num.num) : bool :=
  match exactValue total, exactSum xs with
  | Some a, Some b => QArith_base.Qeq_bool a b
  | _, _ => false
  end.

(** Integers as the Numbers the parser holds. *)
Definition asNumbers (o : option (Z * Z)) : option (Builtin.jsint * Builtin.jsint) :=
  match o with
  | Some (d, m) => Some (Some d, Some m)
  | None => None
  end.

End Spec.

(* ================================================================= *)
(** ** Inputs of the examples *)

Module Inputs.

Import JS.

(** The block of the specification's example. *)
Definition exampleBlock : list str :=
  map lit ["0211/FTSCY/WS95051"; "PEMBAYARAN INVOICE"; "500.000,00 DB";
           "10.000.000,00"]%string.

(** Sixty lines, none of them a date. *)
Definition sixtyLines : list str := repeat (lit "A 1") 60.

(** The end-to-end scenario of the specification. *)
Definition scenario : str :=
  join [LF]
       (map lit ["PERIODE: JANUARI 2025"; "SALDO AWAL:1.000.000,00"; "05/01";
                 "TRANSFER MASUK"; "500.000,00 CR"; "06/01"; "BIAYA ADMIN";
                 "10.000,00 DB"; "1.490.000,00"]%string).

(** A document whose only hex string decodes to one space, and one with a
    letter after it. *)
Definition blankPdf : list Byte.byte := list_byte_of_string "<20>".
Definition blankThenLetterPdf : list Byte.byte := list_byte_of_string "<20><41>".

(** A transcription of sixty characters. *)
Definition sixtyChars : str := repeat (ch "x") 60.

(** Three debits of 0.10, 0.20 and 0.30. *)
Definition tenths : str :=
  join [LF]
       (map lit ["01/02"; "KOPI 0,10 DB"; "02/02"; "TEH 0,20 DB"; "03/02";
                 "GULA 0,30 DB"]%string).

(** The message of the handler's own length check. *)
Definition ocrRejected : str :=
  lit "OCR failed to extract sufficient text. File may be corrupt or empty.".

End Inputs.

(* ================================================================= *)
(** * Properties *)

Import JS Builtin Regex Amount Statement Extractor Handler.
Open Scope N_scope.

(** ** Character classes *)

Section Classes.

Lemma isDigit_cases (c : char) :
  isDigit c = true ->
  In c [48; 49; 50; 51; 52; 53; 54; 55; 56; 57].
Proof.
  unfold isDigit. intros H. apply andb_prop in H. destruct H as [H1 H2].
  apply N.leb_le in H1. apply N.leb_le in H2. simpl.
  assert (c = 48 \/ c = 49 \/ c = 50 \/ c = 51 \/ c = 52 \/ c = 53 \/ c = 54
          \/ c = 55 \/ c = 56 \/ c = 57) by lia.
  intuition.
Qed.

Lemma isHexDigit_cases (c : char) :
  isHexDigit c = true ->
  In c [48; 49; 50; 51; 52; 53; 54; 55; 56; 57; 65; 66; 67; 68; 69; 70;
        97; 98; 99; 100; 101; 102].
Proof.
  unfold isHexDigit, isDigit. intros H.
  assert ((48 <= c /\ c <= 57) \/ (65 <= c /\ c <= 70) \/ (97 <= c /\ c <= 102)) as Hc.
  { apply orb_prop in H. destruct H as [H | H].
    - apply orb_prop in H. destruct H as [H | H];
        apply andb_prop in H; destruct H as [H1 H2];
        apply N.leb_le in H1; apply N.leb_le in H2; auto.
    - apply andb_prop in H; destruct H as [H1 H2];
        apply N.leb_le in H1; apply N.leb_le in H2; auto. }
  assert (c = 48 \/ c = 49 \/ c = 50 \/ c = 51 \/ c = 52 \/ c = 53 \/ c = 54
          \/ c = 55 \/ c = 56 \/ c = 57 \/ c = 65 \/ c = 66 \/ c = 67 \/ c = 68
          \/ c = 69 \/ c = 70 \/ c = 97 \/ c = 98 \/ c = 99 \/ c = 100
          \/ c = 101 \/ c = 102) by lia.
  cbn. intuition.
Qed.

(** Under the [i] flag an upper-case pattern letter matches itself and its
    lower-case form, and nothing else. *)
Lemma upper_eq (c x : char) :
  isUpper c = true ->
  (upperAscii c =? upperAscii x) = true <-> x = c \/ x = c + 32.
Proof.
  unfold upperAscii, isUpper, isLower. intros Hc.
  apply andb_prop in Hc. destruct Hc as [H1 H2].
  apply N.leb_le in H1. apply N.leb_le in H2.
  replace ((97 <=? c) && (c <=? 122)) with false
    by (symmetry; apply andb_false_iff; left; apply N.leb_gt; lia).
  rewrite N.eqb_eq.
  destruct ((97 <=? x) && (x <=? 122)) eqn:Hx.
  - apply andb_prop in Hx. destruct Hx as [H3 H4].
    apply N.leb_le in H3. apply N.leb_le in H4. lia.
  - apply andb_false_iff in Hx. rewrite !N.leb_gt in Hx. lia.
Qed.

End Classes.

(** Case analysis over the ten digits, or the twenty-two hex digits. *)
Ltac each_digit H :=
  apply isDigit_cases in H; simpl in H;
  repeat (destruct H as [H | H]; [symmetry in H; subst | ]); try contradiction.

Ltac each_hex H :=
  apply isHexDigit_cases in H; cbn [In] in H;
  repeat (destruct H as [H | H]; [symmetry in H; subst | ]); try contradiction.

Ltac none_ne_none H := exfalso; apply H; reflexivity.

(** ** Lists of characters *)

Section Strings.

Variable p : char -> bool.

Lemma takeWhile_dropWhile (s : str) : takeWhile p s ++ dropWhile p s = s.
Proof.
  induction s as [| x s IH]; cbn; [reflexivity |].
  destruct (p x); cbn; [now rewrite IH | reflexivity].
Qed.

Lemma takeWhile_Forall (s : str) : Forall (fun c => p c = true) (takeWhile p s).
Proof.
  induction s as [| x s IH]; cbn; [constructor |].
  destruct (p x) eqn:Hx; constructor; assumption.
Qed.

Lemma dropWhile_length (s : str) :
  (List.length (dropWhile p s) <= List.length s)%nat.
Proof.
  induction s as [| x s IH]; cbn; [lia |]. destruct (p x); cbn; lia.
Qed.

Lemma takeWhile_length (s : str) :
  (List.length (takeWhile p s) <= List.length s)%nat.
Proof.
  induction s as [| x s IH]; cbn; [lia |]. destruct (p x); cbn; lia.
Qed.

Lemma firstn_takeWhile (s : str) :
  firstn (List.length s - List.length (dropWhile p s)) s = takeWhile p s.
Proof.
  rewrite <- (takeWhile_dropWhile s) at 1 3.
  rewrite length_app, Nat.add_sub, firstn_app, Nat.sub_diag, firstn_all.
  cbn. apply app_nil_r.
Qed.

Lemma skipn_takeWhile (s : str) :
  skipn (List.length (takeWhile p s)) s = dropWhile p s.
Proof.
  rewrite <- (takeWhile_dropWhile s) at 2.
  rewrite skipn_app, skipn_all, Nat.sub_diag. reflexivity.
Qed.

Lemma filter_all (s : str) :
  Forall (fun c => p c = true) s -> filter p s = s.
Proof.
  induction 1 as [| x s Hx _ IH]; cbn; [reflexivity |]. now rewrite Hx, IH.
Qed.

Lemma forallb_rev (s : str) : forallb p (rev s) = forallb p s.
Proof.
  induction s as [| c s IH]; [reflexivity |].
  cbn [rev forallb]. rewrite forallb_app, IH. cbn. rewrite andb_true_r.
  apply andb_comm.
Qed.

End Strings.

Lemma last_default {A} (l : list A) (d d' : A) :
  l <> [] -> last l d = last l d'.
Proof.
  induction l as [| a l IH]; [congruence |]. intros _.
  destruct l as [| b l]; [reflexivity |].
  change (last (b :: l) d = last (b :: l) d'). apply IH. discriminate.
Qed.

Lemma lastOr_cons prev x pre :
  Spec.lastOr prev (x :: pre) = Spec.lastOr (Some x) pre.
Proof.
  unfold Spec.lastOr, Spec.lastOf. cbn [rev].
  destruct (rev pre) as [| y l]; reflexivity.
Qed.

(** [trim] leaves nothing exactly of the blank strings. *)
Lemma trimStart_nil (s : str) :
  trimStart s = [] <-> forallb isSpace s = true.
Proof.
  induction s as [| c s IH]; cbn; [tauto |].
  destruct (isSpace c); cbn; [exact IH | split; discriminate].
Qed.

Lemma trimStart_head (s : str) c r :
  trimStart s = c :: r -> isSpace c = false.
Proof.
  induction s as [| x s IH]; cbn; [discriminate |].
  destruct (isSpace x) eqn:E; [exact IH |]. intros H. injection H as <- _. exact E.
Qed.

Lemma trim_nil (s : str) : trim s = [] <-> Spec.isBlank s = true.
Proof.
  unfold trim, trimEnd, Spec.isBlank.
  rewrite <- trimStart_nil.
  split.
  - intros H. destruct (trimStart s) as [| c r] eqn:E; [reflexivity |].
    exfalso.
    assert (Hr : trimStart (rev (c :: r)) = []).
    { destruct (trimStart (rev (c :: r))); [reflexivity |].
      cbn in H. apply (f_equal (@List.length char)) in H.
      rewrite length_app in H. cbn in H. lia. }
    apply trimStart_nil in Hr. rewrite forallb_rev in Hr. cbn in Hr.
    rewrite (trimStart_head s c r E) in Hr. discriminate.
  - intros ->. reflexivity.
Qed.

(** The [replace] calls of [parseAmount]. *)
Section Replace.

Variables c d : char.

Lemma replaceAll_nil_filter (s : str) :
  replaceAll c [] s = filter (fun x => negb (x =? c)) s.
Proof.
  induction s as [| x s IH]; cbn; [reflexivity |].
  destruct (x =? c); cbn; now rewrite IH.
Qed.

Lemma map_none (s : str) :
  countChar c s = 0%nat -> map (fun x => if x =? c then d else x) s = s.
Proof.
  unfold countChar. induction s as [| x s IH]; cbn; [reflexivity |].
  destruct (x =? c); cbn; [discriminate |]. intros H. now rewrite IH.
Qed.

Lemma replaceFirst_single (s : str) :
  countChar c s = 1%nat ->
  replaceFirst c [d] s = map (fun x => if x =? c then d else x) s.
Proof.
  unfold countChar. induction s as [| x s IH]; cbn; [discriminate |].
  destruct (x =? c) eqn:E; cbn.
  - intros H. injection H as H. f_equal. symmetry. apply map_none. exact H.
  - intros H. f_equal. apply IH. exact H.
Qed.

Lemma countChar_filter_other (s : str) :
  c <> d ->
  countChar c (filter (fun x => negb (x =? d)) s) = countChar c s.
Proof.
  intros Hcd. unfold countChar. induction s as [| x s IH]; cbn; [reflexivity |].
  destruct (x =? d) eqn:Ed; cbn.
  - apply N.eqb_eq in Ed. subst x.
    replace (d =? c) with false by (symmetry; apply N.eqb_neq; congruence).
    exact IH.
  - destruct (x =? c); cbn; now rewrite IH.
Qed.

End Replace.

(** ** The matcher *)

Section MatcherFacts.

Variable ic : bool.

Lemma searchFrom_step r prev (s : str) :
  searchFrom ic r prev s =
  match matchAt ic r prev s with
  | Some m => Some m
  | None => match s with
            | x :: s' => searchFrom ic r (Some x) s'
            | [] => None
            end
  end.
Proof. destruct s; reflexivity. Qed.

(** A pattern that opens with [^] matches at the start of the input only. *)
Lemma searchFrom_Bol (r : regex) (c : char) (s : str) :
  searchFrom ic (Seq Bol r) (Some c) s = None.
Proof.
  revert c. induction s as [| x s IH]; intros c; simpl; auto.
Qed.

Lemma search_Bol (r : regex) (s : str) :
  search ic (Seq Bol r) s = matchAt ic (Seq Bol r) None s.
Proof.
  unfold search. destruct s as [| x s]; simpl.
  - destruct (matchAt ic (Seq Bol r) None []); reflexivity.
  - destruct (matchAt ic (Seq Bol r) None (x :: s)); auto using searchFrom_Bol.
Qed.

(** When what follows a repetition always succeeds, the repetition takes the
    whole run. *)
Lemma star_total p (k : cont) (g : str -> caps -> result) :
  (forall prev s cs, k prev s cs = Some (g s cs)) ->
  forall prev s cs, star p k prev s cs = Some (g (dropWhile p s) cs).
Proof.
  intros Hk prev s. revert prev.
  induction s as [| x s IH]; intros prev cs; cbn; [apply Hk |].
  destruct (p x); [| apply Hk]. rewrite IH. reflexivity.
Qed.

(** When what follows a repetition cannot start inside the class, only the
    whole run can be followed by it. *)
Lemma star_closed p (K : cont) :
  (forall prev x s cs, p x = true -> K prev (x :: s) cs = None) ->
  forall s prev cs,
    star p K prev s cs = K (Spec.lastOr prev (takeWhile p s)) (dropWhile p s) cs.
Proof.
  intros HK. induction s as [| x s IH]; intros prev cs; cbn [star takeWhile dropWhile].
  - reflexivity.
  - destruct (p x) eqn:Hx; [| reflexivity].
    rewrite IH, lastOr_cons, (HK prev x s cs Hx).
    destruct (K _ _ cs); reflexivity.
Qed.

(** The matches of [([class]+)]: a maximal run, from its first character. *)
Lemma matchAt_run1 p prev (s : str) :
  matchAt ic (Grp 1 (Plus p)) prev s =
  match s with
  | x :: s' =>
      if p x then
        Some (MkMatch (x :: takeWhile p s') [(1%nat, x :: takeWhile p s')]
                      (dropWhile p s'))
      else None
  | [] => None
  end.
Proof.
  unfold matchAt. cbn [run].
  destruct s as [| x s']; [reflexivity |].
  destruct (p x); [| reflexivity].
  rewrite star_total with
    (g := fun s0 cs0 =>
            (s0, (1%nat, firstn (List.length (x :: s') - List.length s0) (x :: s')) :: cs0))
    by reflexivity.
  pose proof (dropWhile_length p s').
  cbn [List.length]. rewrite Nat.sub_succ_l by assumption.
  cbn [firstn]. rewrite firstn_takeWhile. reflexivity.
Qed.

(** Every element of the loop over the matches is a match somewhere. *)
Lemma execAllFrom_In r m :
  forall s prev n,
    In m (execAllFrom ic r prev s n) ->
    exists prev' s', matchAt ic r prev' s' = Some m.
Proof.
  induction s as [| x s IH]; intros prev n H.
  - destruct n; cbn in H; [| contradiction].
    destruct (matchAt ic r prev []) as [m' |] eqn:E; [| contradiction].
    destruct H as [<- | []]. eauto.
  - destruct n; cbn [execAllFrom] in H; [| eapply IH; eassumption].
    destruct (matchAt ic r prev (x :: s)) as [m' |] eqn:E.
    + destruct H as [<- | H]; [eauto | eapply IH; eassumption].
    + eapply IH; eassumption.
Qed.

Section PrevIndependent.

(** Patterns without [^] and [\b] do not look at the character before the
    cursor. *)
Variable r : regex.
Hypothesis r_prev :
  forall prev prev' s, matchAt ic r prev s = matchAt ic r prev' s.

Lemma execAllFrom_prev :
  forall s prev prev' n, execAllFrom ic r prev s n = execAllFrom ic r prev' s n.
Proof.
  induction s as [| x s IH]; intros prev prev' n.
  - destruct n; cbn; [| reflexivity]. rewrite (r_prev prev prev'). reflexivity.
  - destruct n; cbn; [| apply IH]. rewrite (r_prev prev prev'). reflexivity.
Qed.

Lemma execAllFrom_skip :
  forall n s prev,
    (n <= List.length s)%nat ->
    execAllFrom ic r prev s n = execAllFrom ic r None (skipn n s) 0.
Proof.
  induction n as [| n IH]; intros s prev Hn.
  - cbn [skipn]. apply execAllFrom_prev.
  - destruct s as [| x s]; [cbn in Hn; lia |].
    cbn [execAllFrom skipn]. apply IH. cbn in Hn. lia.
Qed.

End PrevIndependent.

Lemma runsFrom_cur p (cur s : str) :
  cur <> [] ->
  Spec.runsFrom p cur s =
  (rev cur ++ takeWhile p s) :: Spec.runsFrom p [] (dropWhile p s).
Proof.
  revert cur. induction s as [| x s IH]; intros cur Hcur; cbn.
  - destruct cur; [congruence |]. now rewrite app_nil_r.
  - destruct (p x) eqn:Hx.
    + rewrite IH by discriminate. cbn [rev]. now rewrite <- app_assoc.
    + destruct cur; [congruence |]. cbn [Spec.runsFrom]. rewrite Hx.
      now rewrite app_nil_r.
Qed.

(** The loop over the matches of [([class]+)] visits the maximal runs of the
    class, left to right. *)
Lemma execAll_runs p (s : str) :
  map (grp 1) (execAll ic (Grp 1 (Plus p)) s) = Spec.maximalRuns p s.
Proof.
  unfold execAll, Spec.maximalRuns.
  assert (Hprev : forall prev prev' s0,
             matchAt ic (Grp 1 (Plus p)) prev s0 = matchAt ic (Grp 1 (Plus p)) prev' s0)
    by (intros; now rewrite !matchAt_run1).
  induction s as [s IH] using (induction_ltof1 _ (@List.length char)).
  unfold ltof in IH.
  destruct s as [| x s'].
  - reflexivity.
  - cbn [execAllFrom Spec.runsFrom]. rewrite matchAt_run1.
    destruct (p x) eqn:Hx.
    + cbn [mtext map List.length].
      replace (S (List.length (takeWhile p s')) - 1)%nat
        with (List.length (takeWhile p s')) by lia.
      rewrite (execAllFrom_skip _ Hprev) by apply takeWhile_length.
      rewrite skipn_takeWhile, runsFrom_cur by discriminate.
      cbn [rev app]. f_equal. apply IH.
      pose proof (dropWhile_length p s'). cbn. lia.
    + rewrite (execAllFrom_prev _ Hprev) with (prev' := None).
      apply IH. cbn. lia.
Qed.

End MatcherFacts.

(** The matches of [open ([class]+) close] when [close] is outside the
    class: group 1 is a non-empty run of the class. *)
Lemma delimited_group (o c : char) p prev (s : str) m :
  (forall x, p x = true -> (c =? x) = false) ->
  matchAt false (seqs [Chr o; Grp 1 (Plus p); Chr c]) prev s = Some m ->
  Forall (fun x => p x = true) (grp 1 m) /\ grp 1 m <> [].
Proof.
  intros Hp. unfold matchAt. cbn [seqs run].
  destruct s as [| x [| y s]]; try discriminate.
  - destruct (chrEq false o x); discriminate.
  - destruct (chrEq false o x); [| discriminate].
    destruct (p y) eqn:Hy; [| discriminate].
    rewrite star_closed.
    + destruct (dropWhile p s) as [| z s3] eqn:Ed; [discriminate |].
      destruct (chrEq false c z); [| discriminate].
      intros H. injection H as <-. unfold grp. cbn [mcaps group Nat.eqb].
      pose proof (dropWhile_length p s) as Hl. rewrite Ed in Hl.
      cbn [List.length] in *.
      replace (List.length s - List.length s3)%nat
        with (S (List.length s - List.length (dropWhile p s)))%nat
        by (rewrite Ed; cbn [List.length]; lia).
      cbn [firstn]. rewrite firstn_takeWhile.
      split; [| discriminate]. constructor; [exact Hy | apply takeWhile_Forall].
    + intros prev0 x0 s0 cs0 Hx0. unfold chrEq. rewrite (Hp x0 Hx0). reflexivity.
Qed.

(** ** Date lines *)

Lemma parseInt_two_digits (a b : char) :
  isDigit a = true -> isDigit b = true ->
  parseInt [a; b] None = Some (Spec.twoDigits a b).
Proof.
  intros Ha Hb. each_digit Ha; each_digit Hb; reflexivity.
Qed.

Lemma isDigit_not_slash c : isDigit c = true -> (c =? 47) = false.
Proof. intros H. each_digit H; reflexivity. Qed.

Lemma twoSlashTwo_Some line a b d e :
  Spec.twoSlashTwo line = Some (a, b, d, e) ->
  line = [a; b; ch "/"; d; e] /\ isDigit a = true /\ isDigit b = true
  /\ isDigit d = true /\ isDigit e = true.
Proof.
  unfold Spec.twoSlashTwo.
  destruct line as [| a' [| b' [| s [| d' [| e' [| f line]]]]]]; try discriminate.
  destruct (isDigit a') eqn:Ha; try discriminate.
  destruct (isDigit b') eqn:Hb; try discriminate.
  destruct (s =? ch "/") eqn:Hs; try discriminate.
  destruct (isDigit d') eqn:Hd; try discriminate.
  destruct (isDigit e') eqn:He; try discriminate.
  cbn. intros H. injection H as -> -> -> ->. apply N.eqb_eq in Hs. subst s. auto.
Qed.

Ltac by_shape :=
  rewrite search_Bol; unfold matchAt, Spec.twoSlashTwo;
  match goal with
  | |- context [run _ _ _ _ ?line _] =>
      destruct line as [| ?a [| ?b [| ?s [| ?d [| ?e [| ?f ?line']]]]]]
  end;
  cbn -[N.eqb isDigit]; unfold chrEq; try reflexivity;
  rewrite ?(N.eqb_sym (ch "/"));
  repeat match goal with
         | |- context [if ?b then _ else _] => destruct b eqn:?; cbn -[N.eqb isDigit]
         end; try reflexivity; try discriminate.

(** Both date patterns match exactly the lines of the shape
    "two digits, a slash, two digits". *)
Lemma dateRe_shape (line : str) :
  search false dateRe line =
  match Spec.twoSlashTwo line with
  | Some (a, b, d, e) => Some (MkMatch line [(2%nat, [d; e]); (1%nat, [a; b])] [])
  | None => None
  end.
Proof. unfold dateRe. cbn [seqs]. by_shape. Qed.

Lemma nextDateRe_shape (line : str) :
  search false nextDateRe line =
  match Spec.twoSlashTwo line with
  | Some _ => Some (MkMatch line [] [])
  | None => None
  end.
Proof. unfold nextDateRe. cbn [seqs]. by_shape. Qed.

Lemma dateBoundary_shape line :
  Spec.dateBoundary line =
  match Spec.twoSlashTwo line with
  | Some (a, b, d, e) =>
      if ((1 <=? Spec.twoDigits a b) && (Spec.twoDigits a b <=? 31)
          && (1 <=? Spec.twoDigits d e) && (Spec.twoDigits d e <=? 12))%Z
      then Some (Spec.twoDigits a b, Spec.twoDigits d e) else None
  | None => None
  end.
Proof.
  unfold Spec.dateBoundary, Spec.twoSlashTwo.
  destruct line as [| a [| b [| s [| d [| e [| f line]]]]]]; try reflexivity.
  destruct (isDigit a && isDigit b && (s =? ch "/") && isDigit d && isDigit e);
    reflexivity.
Qed.

Lemma dateOfLine_spec (line : str) :
  dateOfLine line = Spec.asNumbers (Spec.dateBoundary line).
Proof.
  unfold dateOfLine. rewrite dateRe_shape, dateBoundary_shape.
  destruct (Spec.twoSlashTwo line) as [[[[a b] d] e] |] eqn:Hs; [| reflexivity].
  apply twoSlashTwo_Some in Hs. destruct Hs as (-> & Ha & Hb & Hd & He).
  unfold grp. cbn [mcaps group Nat.eqb].
  rewrite !parseInt_two_digits by assumption.
  unfold int_ltb, int_gtb.
  destruct (Z.leb_spec 1 (Spec.twoDigits a b)), (Z.leb_spec (Spec.twoDigits a b) 31),
    (Z.leb_spec 1 (Spec.twoDigits d e)), (Z.leb_spec (Spec.twoDigits d e) 12);
    destruct (Z.ltb_spec (Spec.twoDigits a b) 1), (Z.ltb_spec 31 (Spec.twoDigits a b)),
    (Z.ltb_spec (Spec.twoDigits d e) 1), (Z.ltb_spec 12 (Spec.twoDigits d e));
    cbn; try reflexivity; lia.
Qed.

Lemma splitOn_date a b d e :
  isDigit a = true -> isDigit b = true -> isDigit d = true -> isDigit e = true ->
  splitOn (ch "/") [a; b; ch "/"; d; e] = [[a; b]; [d; e]].
Proof.
  intros Ha Hb Hd He. change (ch "/") with 47. cbn -[N.eqb].
  rewrite (isDigit_not_slash a Ha), (isDigit_not_slash b Hb),
    (isDigit_not_slash d Hd), (isDigit_not_slash e He).
  reflexivity.
Qed.

Lemma isNextDate_spec (line : str) :
  isNextDate line =
  match Spec.dateBoundary line with Some _ => true | None => false end.
Proof.
  unfold isNextDate. rewrite nextDateRe_shape, dateBoundary_shape.
  destruct (Spec.twoSlashTwo line) as [[[[a b] d] e] |] eqn:Hs; [| reflexivity].
  apply twoSlashTwo_Some in Hs. destruct Hs as (-> & Ha & Hb & Hd & He).
  rewrite splitOn_date by assumption. cbn [nth].
  rewrite !parseInt_two_digits by assumption.
  unfold int_geb, int_leb.
  destruct ((1 <=? Spec.twoDigits a b)%Z && (Spec.twoDigits a b <=? 31)%Z
            && (1 <=? Spec.twoDigits d e)%Z && (Spec.twoDigits d e <=? 12)%Z);
    reflexivity.
Qed.

(** ** Lines and line breaks *)

Lemma splitOn_cons (c : char) (s : str) : splitOn c s <> [].
Proof.
  induction s as [| x s IH]; cbn; [discriminate |].
  destruct (x =? c); [discriminate |].
  destruct (splitOn c s); discriminate.
Qed.

Lemma splitOn_parts (s : str) : Forall Spec.noLF (splitOn LF s).
Proof.
  induction s as [| x s IH]; cbn [splitOn].
  - repeat constructor.
  - destruct (N.eqb_spec x LF) as [-> | Hx].
    + constructor; [constructor | exact IH].
    + destruct (splitOn LF s) as [| p ps]; [repeat constructor; exact Hx |].
      inversion IH; subst. constructor; [constructor |]; assumption.
Qed.

Lemma trimStart_Forall (P : char -> Prop) (s : str) :
  Forall P s -> Forall P (trimStart s).
Proof.
  induction 1 as [| x s Hx Hs IH]; cbn; [constructor |].
  destruct (isSpace x); [exact IH | constructor; assumption].
Qed.

Lemma trim_Forall (P : char -> Prop) (s : str) :
  Forall P s -> Forall P (trim s).
Proof.
  intros H. unfold trim, trimEnd.
  apply Forall_rev, trimStart_Forall, Forall_rev, trimStart_Forall, H.
Qed.

Lemma linesOf_noLF (text : str) : Forall Spec.noLF (linesOf text).
Proof.
  unfold linesOf. apply Forall_forall. intros l Hl.
  apply filter_In in Hl. destruct Hl as [Hl _].
  apply in_map_iff in Hl. destruct Hl as (p & <- & Hp).
  apply trim_Forall. pose proof (splitOn_parts text) as H.
  rewrite Forall_forall in H. apply H, Hp.
Qed.

Lemma splitOn_app_sep (p rest : str) :
  Spec.noLF p -> splitOn LF (p ++ LF :: rest) = p :: splitOn LF rest.
Proof.
  induction 1 as [| x p Hx Hp IH]; cbn [app splitOn].
  - rewrite N.eqb_refl. reflexivity.
  - destruct (N.eqb_spec x LF) as [-> | _]; [congruence |]. rewrite IH. reflexivity.
Qed.

Lemma splitOn_noLF (p : str) : Spec.noLF p -> splitOn LF p = [p].
Proof.
  induction 1 as [| x p Hx Hp IH]; cbn [splitOn]; [reflexivity |].
  destruct (N.eqb_spec x LF) as [-> | _]; [congruence |]. rewrite IH. reflexivity.
Qed.

Lemma join_cons2 (sep p q : str) (ps : list str) :
  join sep (p :: q :: ps) = p ++ sep ++ join sep (q :: ps).
Proof. reflexivity. Qed.

(** A block is read back from its description. *)
Lemma splitOn_join (dl : list str) :
  Forall Spec.noLF dl -> dl <> [] -> splitOn LF (join [LF] dl) = dl.
Proof.
  induction 1 as [| p dl Hp Hdl IH]; [congruence |]. intros _.
  destruct dl as [| q dl].
  - apply splitOn_noLF, Hp.
  - rewrite join_cons2. cbn [app]. rewrite splitOn_app_sep by exact Hp.
    f_equal. apply IH. discriminate.
Qed.

(** Joining with spaces instead of line breaks moves no word boundary. *)
Lemma lfToSpace_noLF (p : str) : Spec.noLF p -> map Spec.lfToSpace p = p.
Proof.
  induction 1 as [| x p Hx Hp IH]; cbn; [reflexivity |].
  unfold Spec.lfToSpace at 1. destruct (N.eqb_spec x LF); [congruence |]. now rewrite IH.
Qed.

Lemma join_space (dl : list str) :
  Forall Spec.noLF dl -> join (lit " ") dl = map Spec.lfToSpace (join [LF] dl).
Proof.
  induction 1 as [| p dl Hp Hdl IH]; [reflexivity |].
  destruct dl as [| q dl].
  - symmetry. apply lfToSpace_noLF, Hp.
  - rewrite !join_cons2, !map_app, lfToSpace_noLF by exact Hp.
    rewrite IH. reflexivity.
Qed.

Lemma lfToSpace_word (c : char) : isWordChar (Spec.lfToSpace c) = isWordChar c.
Proof. unfold Spec.lfToSpace. destruct (N.eqb_spec c LF) as [-> | _]; reflexivity. Qed.

Lemma lfToSpace_letter (c x : char) :
  isWordChar x = true -> (Spec.lfToSpace c = x <-> c = x).
Proof.
  intros Hx. unfold Spec.lfToSpace. destruct (N.eqb_spec c LF) as [-> | _]; [| tauto].
  split; intros <-; discriminate.
Qed.

Lemma lastOf_map (f : char -> char) (s : str) :
  Spec.lastOf (map f s) = option_map f (Spec.lastOf s).
Proof.
  unfold Spec.lastOf. rewrite <- map_rev. destruct (rev s); reflexivity.
Qed.

Lemma isWordOpt_map (o : option char) :
  isWordOpt (option_map Spec.lfToSpace o) = isWordOpt o.
Proof. destruct o; cbn; [apply lfToSpace_word | reflexivity]. Qed.

Lemma hd_error_map (f : char -> char) (s : str) :
  hd_error (map f s) = option_map f (hd_error s).
Proof. destruct s; reflexivity. Qed.

Lemma wholeWordCR_lfToSpace (s : str) :
  Spec.wholeWordCR (map Spec.lfToSpace s) <-> Spec.wholeWordCR s.
Proof.
  assert (HC : forall c x, (x = ch "C" \/ x = ch "c" \/ x = ch "R" \/ x = ch "r") ->
                           (Spec.lfToSpace c = x <-> c = x)).
  { intros c x Hx. apply lfToSpace_letter.
    destruct Hx as [-> | [-> | [-> | ->]]]; reflexivity. }
  unfold Spec.wholeWordCR. split.
  - intros (pre & c & r & post & Hs & Hc & Hr & Hp & Hn).
    apply map_eq_app in Hs. destruct Hs as (pre0 & s2 & -> & <- & Hs).
    apply map_eq_cons in Hs. destruct Hs as (c0 & s3 & -> & Hc0 & Hs).
    apply map_eq_cons in Hs. destruct Hs as (r0 & post0 & -> & Hr0 & <-).
    assert (Ec : c0 = c) by (apply (HC c0 c); [tauto | exact Hc0]).
    assert (Er : r0 = r) by (apply (HC r0 r); [tauto | exact Hr0]).
    subst c0 r0.
    exists pre0, c, r, post0.
    rewrite lastOf_map, isWordOpt_map in Hp.
    rewrite hd_error_map, isWordOpt_map in Hn. auto.
  - intros (pre & c & r & post & -> & Hc & Hr & Hp & Hn).
    exists (map Spec.lfToSpace pre), c, r, (map Spec.lfToSpace post).
    rewrite map_app. cbn [map].
    rewrite (proj2 (HC c c ltac:(tauto)) eq_refl),
      (proj2 (HC r r ltac:(tauto)) eq_refl).
    rewrite lastOf_map, isWordOpt_map, hd_error_map, isWordOpt_map. auto.
Qed.

(** ** The scan *)

Section Scan.

Variable year : jsint.

Lemma scan_skip line rest txs :
  dateOfLine line = None -> scan year (line :: rest) txs = scan year rest txs.
Proof. intros H. cbn [scan]. rewrite H. reflexivity. Qed.

(** The local loop of [scan] is [collectBlock]. *)
Lemma scan_block line rest txs day mon :
  dateOfLine line = Some (day, mon) ->
  scan year (line :: rest) txs =
  scan year (snd (collectBlock [] rest))
       (pushBlock year day mon (fst (collectBlock [] rest)) txs).
Proof.
  intros H. cbn [scan]. rewrite H.
  match goal with
  | |- ?collect [] rest = _ =>
      enough (forall dl, collect dl rest =
                         scan year (snd (collectBlock dl rest))
                              (pushBlock year day mon (fst (collectBlock dl rest)) txs))
        as E by apply E
  end.
  induction rest as [| nextLine rest IH]; intros dl; cbn [collectBlock fst snd].
  - reflexivity.
  - destruct (isNextDate nextLine); [reflexivity |].
    destruct (50 <? List.length (dl ++ [nextLine]))%nat; [reflexivity |].
    apply IH.
Qed.

Lemma collectBlock_rest_length dl ls :
  (List.length (snd (collectBlock dl ls)) <= List.length ls)%nat.
Proof.
  revert dl. induction ls as [| l ls IH]; intros dl; cbn [collectBlock].
  - auto.
  - destruct (isNextDate l); [auto |].
    destruct (50 <? List.length (dl ++ [l]))%nat; cbn [snd List.length]; auto.
Qed.

(** The lines the inner loop takes are a prefix of the lines it was given,
    and none of them is a date line. *)
Lemma collectBlock_split dl ls :
  exists taken,
    fst (collectBlock dl ls) = dl ++ taken
    /\ ls = taken ++ snd (collectBlock dl ls)
    /\ Forall (fun l => isNextDate l = false) taken.
Proof.
  revert dl. induction ls as [| l ls IH]; intros dl; cbn [collectBlock].
  - exists []. cbn. rewrite app_nil_r. auto.
  - destruct (isNextDate l) eqn:Hl.
    + exists []. cbn. rewrite app_nil_r. auto.
    + destruct (50 <? List.length (dl ++ [l]))%nat.
      * exists [l]. cbn. auto.
      * destruct (IH (dl ++ [l])) as (tk & H1 & H2 & H3).
        exists (l :: tk). rewrite H1, <- app_assoc. cbn. split; [reflexivity |].
        split; [congruence | auto].
Qed.

Lemma collectBlock_length dl ls :
  (List.length dl <= 50)%nat ->
  (List.length (fst (collectBlock dl ls)) <= 51)%nat.
Proof.
  revert dl. induction ls as [| l ls IH]; intros dl Hdl; cbn [collectBlock].
  - cbn. lia.
  - destruct (isNextDate l); [cbn; lia |].
    destruct (Nat.ltb_spec 50 (List.length (dl ++ [l]))) as [Hc | Hc];
      cbn [fst].
    + rewrite length_app in *. cbn in *. lia.
    + apply IH. assumption.
Qed.

(** Why the inner loop stops: the text ends, a date line comes next, or the
    buffer has reached fifty-one lines. *)
Lemma collectBlock_stop dl ls :
  (List.length dl <= 50)%nat ->
  snd (collectBlock dl ls) = []
  \/ (exists l rest', snd (collectBlock dl ls) = l :: rest' /\ isNextDate l = true)
  \/ List.length (fst (collectBlock dl ls)) = 51%nat.
Proof.
  revert dl. induction ls as [| l ls IH]; intros dl Hdl; cbn [collectBlock].
  - left. reflexivity.
  - destruct (isNextDate l) eqn:Hl; [right; left; cbn [snd]; eauto |].
    destruct (Nat.ltb_spec 50 (List.length (dl ++ [l]))) as [Hc | Hc].
    + right; right. cbn [fst]. rewrite length_app in *. cbn in *. lia.
    + apply IH. assumption.
Qed.

(** Lines that are no date line, no more than the cap leaves room for, and
    then the end of the text or a date line: the loop takes exactly those
    lines. *)
Lemma collectBlock_block : forall block dl rest,
  Forall (fun l => isNextDate l = false) block ->
  (List.length dl + List.length block <= 50)%nat ->
  rest = [] \/ (exists l rest', rest = l :: rest' /\ isNextDate l = true) ->
  collectBlock dl (block ++ rest) = (dl ++ block, rest).
Proof.
  induction block as [| l block IH]; intros dl rest Hb Hlen Hrest.
  - cbn [app]. rewrite app_nil_r.
    destruct Hrest as [-> | (l & rest' & -> & Hl)]; [reflexivity |].
    cbn [collectBlock]. rewrite Hl. reflexivity.
  - inversion Hb as [| ? ? Hl Hb']; subst. cbn [app collectBlock]. rewrite Hl.
    destruct (Nat.ltb_spec 50 (List.length (dl ++ [l]))) as [Hc | Hc].
    + rewrite length_app in Hc. cbn in Hc, Hlen. lia.
    + rewrite IH; [now rewrite <- app_assoc | exact Hb' | | exact Hrest].
      rewrite length_app. cbn in *. lia.
Qed.

(** Without a date line nothing is pushed. *)
Lemma scan_no_date : forall lines txs,
  Forall (fun l => dateOfLine l = None) lines -> scan year lines txs = txs.
Proof.
  induction lines as [| l lines IH]; intros txs H; [reflexivity |].
  inversion H as [| ? ? Hl Hr]; subst. rewrite scan_skip by exact Hl. apply IH, Hr.
Qed.

(** Whatever holds of the list so far and survives the push of a block of
    lines of the text holds of the result of the scan. *)
Lemma scan_invariant (P : str -> Prop) (Q : list ParsedTransaction -> Prop) :
  (forall txs day mon dl,
      Forall P dl -> Q txs -> Q (pushBlock year day mon dl txs)) ->
  forall lines txs, Forall P lines -> Q txs -> Q (scan year lines txs).
Proof.
  intros Hpush lines.
  induction lines as [lines IH] using (induction_ltof1 _ (@List.length str)).
  unfold ltof in IH. intros txs Hlines Htxs.
  destruct lines as [| line rest]; [exact Htxs |].
  inversion Hlines as [| ? ? _ Hrest]; subst.
  destruct (dateOfLine line) as [[day mon] |] eqn:Hd.
  - erewrite scan_block by exact Hd.
    destruct (collectBlock_split [] rest) as (taken & Hf & Hs & _).
    rewrite Hs in Hrest. apply Forall_app in Hrest. destruct Hrest as [Ht Hr].
    apply IH.
    + pose proof (collectBlock_rest_length [] rest). cbn [List.length]. lia.
    + exact Hr.
    + apply Hpush; [rewrite Hf; exact Ht | exact Htxs].
  - rewrite scan_skip by exact Hd. apply IH; [cbn; lia | exact Hrest | exact Htxs].
Qed.

End Scan.

(** ** One block *)

(** The pattern [\bCR\b] with the [i] flag. *)
Lemma isWord_CR_c (c : char) : c = ch "C" \/ c = ch "c" -> isWordChar c = true.
Proof. intros [-> | ->]; reflexivity. Qed.

Lemma isWord_CR_r (r : char) : r = ch "R" \/ r = ch "r" -> isWordChar r = true.
Proof. intros [-> | ->]; reflexivity. Qed.

Lemma creditRe_at (prev : option char) (s : str) :
  matchAt true creditRe prev s <> None <-> Spec.crAt prev s.
Proof.
  unfold matchAt, creditRe, Spec.crAt. cbn [seqs run].
  split.
  - intros H.
    destruct s as [| c [| r post]].
    + cbn in H. destruct (isWordOpt prev); cbn in H; none_ne_none H.
    + lazy beta iota in H. destruct (xorb _ _); [| none_ne_none H].
      destruct (chrEq true (ch "C") c); none_ne_none H.
    + lazy beta iota in H. cbn [hd_error isWordOpt] in H. unfold chrEq in H.
      destruct (upperAscii (ch "C") =? upperAscii c) eqn:E1;
        [| destruct (xorb _ _); none_ne_none H].
      apply upper_eq in E1; [| reflexivity].
      assert (Hc : c = ch "C" \/ c = ch "c") by (destruct E1 as [-> | ->]; auto).
      rewrite (isWord_CR_c _ Hc) in H.
      destruct (isWordOpt prev) eqn:Hp; cbn [xorb] in H; [none_ne_none H |].
      destruct (upperAscii (ch "R") =? upperAscii r) eqn:E2; [| none_ne_none H].
      apply upper_eq in E2; [| reflexivity].
      assert (Hr : r = ch "R" \/ r = ch "r") by (destruct E2 as [-> | ->]; auto).
      rewrite (isWord_CR_r _ Hr) in H.
      destruct (isWordOpt (hd_error post)) eqn:Hn; cbn [xorb] in H;
        [none_ne_none H |].
      exists c, r, post. repeat split; auto.
  - intros (c & r & post & -> & Hc & Hr & Hp & Hn).
    cbn [hd_error isWordOpt]. rewrite Hp, (isWord_CR_c _ Hc). cbn [xorb].
    unfold chrEq.
    replace (upperAscii (ch "C") =? upperAscii c) with true
      by (destruct Hc as [-> | ->]; reflexivity).
    replace (upperAscii (ch "R") =? upperAscii r) with true
      by (destruct Hr as [-> | ->]; reflexivity).
    rewrite (isWord_CR_r _ Hr), Hn. cbn. discriminate.
Qed.

Lemma searchFrom_credit (s : str) : forall prev,
  searchFrom true creditRe prev s <> None <->
  exists pre c r post,
    s = pre ++ c :: r :: post
    /\ (c = ch "C" \/ c = ch "c") /\ (r = ch "R" \/ r = ch "r")
    /\ isWordOpt (Spec.lastOr prev pre) = false
    /\ isWordOpt (hd_error post) = false.
Proof.
  induction s as [| x s IH]; intros prev; rewrite searchFrom_step.
  - split.
    + intros H. destruct (matchAt true creditRe prev []) as [m |] eqn:E;
        [| none_ne_none H].
      assert (Hm : matchAt true creditRe prev [] <> None) by (rewrite E; discriminate).
      apply creditRe_at in Hm. destruct Hm as (c & r & post & Hs & _). discriminate.
    + intros (pre & c & r & post & Hs & _). destruct pre; discriminate.
  - split.
    + intros H. destruct (matchAt true creditRe prev (x :: s)) as [m |] eqn:E.
      * assert (Hm : matchAt true creditRe prev (x :: s) <> None)
          by (rewrite E; discriminate).
        apply creditRe_at in Hm. destruct Hm as (c & r & post & Hs & Hc & Hr & Hp & Hn).
        exists [], c, r, post. auto.
      * apply IH in H. destruct H as (pre & c & r & post & Hs & Hc & Hr & Hp & Hn).
        exists (x :: pre), c, r, post. rewrite lastOr_cons, Hs. auto.
    + intros (pre & c & r & post & Hs & Hc & Hr & Hp & Hn).
      destruct (matchAt true creditRe prev (x :: s)) as [m |] eqn:E; [discriminate |].
      destruct pre as [| y pre].
      * exfalso. assert (Hm : Spec.crAt prev (x :: s)) by (exists c, r, post; auto).
        apply (proj2 (creditRe_at prev (x :: s))) in Hm. congruence.
      * cbn in Hs. injection Hs as <- ->. apply IH.
        exists pre, c, r, post. rewrite <- (lastOr_cons prev). auto.
Qed.

(** [/\bCR\b/i.test(s)] holds exactly when [CR] occurs in [s] as a whole
    word, in either case. *)
Lemma creditRe_test (s : str) :
  test true creditRe s = true <-> Spec.wholeWordCR s.
Proof.
  unfold test, search, Spec.wholeWordCR.
  pose proof (searchFrom_credit s None) as H. unfold Spec.lastOr in H.
  assert (E : forall pre, match Spec.lastOf pre with
                          | Some y => Some y
                          | None => None
                          end = Spec.lastOf pre)
    by (intros pre; destruct (Spec.lastOf pre); reflexivity).
  destruct (searchFrom true creditRe None s) as [m |].
  - split; [intros _ | reflexivity].
    destruct H as [H _]. destruct H as (pre & c & r & post & H); [discriminate |].
    exists pre, c, r, post. rewrite E in H. exact H.
  - split; [discriminate |]. intros (pre & c & r & post & Hw).
    exfalso. apply H; [| reflexivity].
    exists pre, c, r, post. rewrite E. exact Hw.
Qed.

Lemma keepAmount_strictlyBetween (amt : Num.num) :
  keepAmount amt = Spec.strictlyBetween amt.
Proof. reflexivity. Qed.

(** The numeric tokens of a block are the maximal runs of digits, commas
    and periods. *)
Lemma numericTokens_runs (txt : str) :
  numericTokens txt = Spec.maximalRuns isAmountChar txt.
Proof. apply execAll_runs. Qed.

Lemma blockAmounts_spec (txt : str) :
  blockAmounts txt =
  filter Spec.strictlyBetween (map parseAmount (Spec.maximalRuns isAmountChar txt)).
Proof.
  unfold blockAmounts. rewrite numericTokens_runs.
  apply filter_ext. intros a. apply keepAmount_strictlyBetween.
Qed.

Lemma blockAmounts_positive (txt : str) (amt : Num.num) :
  In amt (blockAmounts txt) ->
  Num.ltb Num.zero amt = true
  /\ Num.ltb amt (Num.ofDecimal 100000000000 0) = true.
Proof.
  unfold blockAmounts. intros H. apply filter_In in H. destruct H as [_ H].
  unfold keepAmount in H. apply andb_prop in H. exact H.
Qed.

Section Block.

Variables year day mon : jsint.
Variable dl : list str.

Lemma processBlock_Some t :
  processBlock year day mon dl = Some t ->
  exists amount rest,
    blockAmounts (join (lit " ") dl) = amount :: rest
    /\ description t = join [LF] dl
    /\ debitAmount t =
       (if test true creditRe (join (lit " ") dl) then Num.zero else amount)
    /\ creditAmount t =
       (if test true creditRe (join (lit " ") dl) then amount else Num.zero)
    /\ balance t = match rest with
                   | [] => None
                   | _ :: _ => Some (last rest amount)
                   end.
Proof.
  unfold processBlock.
  destruct (test true headerRe (join [LF] dl)); [discriminate |].
  destruct (List.length (trim (join [LF] dl)) <? 3)%nat; [discriminate |].
  destruct (blockAmounts (join (lit " ") dl)) as [| amount rest] eqn:E;
    [discriminate |].
  intros H. injection H as <-. exists amount, rest. cbn [description debitAmount
    creditAmount balance]. repeat split.
  destruct rest as [| b rest]; [reflexivity |].
  cbn [List.length Nat.ltb Nat.leb]. f_equal.
  change (last (amount :: b :: rest) Num.zero) with (last (b :: rest) Num.zero).
  apply last_default. discriminate.
Qed.

Lemma processBlock_no_amount :
  blockAmounts (join (lit " ") dl) = [] -> processBlock year day mon dl = None.
Proof.
  intros H. unfold processBlock. rewrite H.
  destruct (test true headerRe (join [LF] dl)); [reflexivity |].
  destruct (List.length (trim (join [LF] dl)) <? 3)%nat; reflexivity.
Qed.

(** A block that passes the two rejection tests and has a kept amount gives
    a transaction. *)
Lemma processBlock_emits amount rest :
  test true headerRe (join [LF] dl) = false ->
  (3 <= List.length (trim (join [LF] dl)))%nat ->
  blockAmounts (join (lit " ") dl) = amount :: rest ->
  exists t,
    processBlock year day mon dl = Some t
    /\ date t = intToString year ++ lit "-" ++ padStart2 (intToString mon)
                             ++ lit "-" ++ padStart2 (intToString day)
    /\ description t = join [LF] dl.
Proof.
  intros Hh Hl Ha. unfold processBlock. rewrite Hh, Ha.
  destruct (Nat.ltb_spec (List.length (trim (join [LF] dl))) 3) as [H | H]; [lia |].
  eexists. split; [reflexivity |]. split; reflexivity.
Qed.

Lemma processBlock_None :
  processBlock year day mon dl = None <->
  test true headerRe (join [LF] dl) = true
  \/ (List.length (trim (join [LF] dl)) < 3)%nat
  \/ blockAmounts (join (lit " ") dl) = [].
Proof.
  unfold processBlock.
  destruct (test true headerRe (join [LF] dl)); [split; auto |].
  destruct (Nat.ltb_spec (List.length (trim (join [LF] dl))) 3) as [H | H];
    [split; auto |].
  destruct (blockAmounts (join (lit " ") dl)) as [| amount rest].
  - split; auto.
  - split; [discriminate |]. intros [? | [? | ?]]; [discriminate | lia | discriminate].
Qed.

End Block.

(** Every transaction of a scan is what [processBlock] makes of the lines
    of its own description. *)
Lemma scan_transactions (year : jsint) (lines : list str) :
  Forall Spec.noLF lines ->
  Forall (fun t => exists day mon,
              processBlock year day mon (splitOn LF (description t)) = Some t)
         (scan year lines []).
Proof.
  intros Hlines.
  apply scan_invariant with (P := Spec.noLF); [| exact Hlines | constructor].
  intros txs day mon dl Hdl Htxs. unfold pushBlock.
  destruct (processBlock year day mon dl) as [t |] eqn:E; [| exact Htxs].
  apply Forall_app. split; [exact Htxs |]. constructor; [| constructor].
  exists day, mon.
  destruct (processBlock_Some _ _ _ _ _ E) as (amount & rest & Ha & Hd & _).
  rewrite Hd, splitOn_join; [exact E | exact Hdl |].
  intros ->. discriminate Ha.
Qed.

Lemma fold_add_map {A} (f : A -> Num.num) (l : list A) (z : Num.num) :
  fold_left (fun s t => Num.add s (f t)) l z = fold_left Num.add (map f l) z.
Proof. revert z. induction l as [| a l IH]; intros z; cbn; auto. Qed.

(* ================================================================= *)
(** * The claims of the specification *)

(** ** The block of the specification's example *)

(** C1.  For the block whose collected lines are [0211/FTSCY/WS95051],
    [PEMBAYARAN INVOICE], [500.000,00 DB], [10.000.000,00], the parser emits
    one transaction; its description is the four lines joined by line
    breaks, its reference is [0211/FTSCY/WS95051] and its balance is
    10000000.00, as the specification says.  Its debit amount, however, is
    211: the kept amounts of the block are 211 and 95051 (the digit runs of
    the reference), 500000.00 and 10000000.00, and the first of them is
    taken.  The specification's 500000.00 is not what the code computes. *)
Theorem example_block_takes_reference_digits_as_amount :
  exists t,
    transactions
      (parseBCAStatement 2025 (join [LF] (lit "02/11" :: Inputs.exampleBlock)) [])
    = [t]
    /\ processBlock (Some 2025%Z) (Some 2%Z) (Some 11%Z) Inputs.exampleBlock = Some t
    /\ description t = join [LF] Inputs.exampleBlock
    /\ reference t = lit "0211/FTSCY/WS95051"
    /\ balance t = Some (Num.ofDecimal 1000000000 2)
    /\ blockAmounts (join (lit " ") Inputs.exampleBlock) =
       [Num.ofZ 211; Num.ofZ 95051; Num.ofDecimal 50000000 2;
        Num.ofDecimal 1000000000 2]
    /\ debitAmount t = Num.ofZ 211
    /\ debitAmount t <> Num.ofDecimal 50000000 2
    /\ creditAmount t = Num.zero.
Proof.
  eexists. split; [vm_compute; reflexivity |].
  repeat split; try (vm_compute; reflexivity).
  vm_compute. discriminate.
Qed.

(** Without the reference line the same block gives the 500000.00 the
    specification expects. *)
Example example_block_without_reference :
  option_map debitAmount
             (processBlock (Some 2025%Z) (Some 2%Z) (Some 11%Z)
                           (tl Inputs.exampleBlock))
  = Some (Num.ofDecimal 50000000 2).
Proof. vm_compute. reflexivity. Qed.

(** ** The cap of the collect-block state *)

Example collect_sixty :
  fst (collectBlock [] Inputs.sixtyLines) = repeat (lit "A 1") 51
  /\ snd (collectBlock [] Inputs.sixtyLines) = repeat (lit "A 1") 9.
Proof. vm_compute. split; reflexivity. Qed.

Example parse_sixty :
  map description
      (transactions
         (parseBCAStatement 2025 (join [LF] (lit "01/01" :: Inputs.sixtyLines)) []))
  = [join [LF] (repeat (lit "A 1") 51)].
Proof. vm_compute. reflexivity. Qed.

(** C2.  The collect-block loop stops before a valid date line, which it
    leaves to the outer loop, at the end of the text, or once the buffer
    holds fifty-one lines: the test [descriptionLines.length > 50] comes
    after the push.  So a block never has more than 51 lines, and a date
    line followed by sixty other lines gives a block, and a transaction
    description, of 51 lines, one more than the 50 of the specification and
    of the comment in the code. *)
Theorem collect_takes_up_to_51_lines :
  (forall ls, (List.length (fst (collectBlock [] ls)) <= 51)%nat)
  /\ (forall ls,
        snd (collectBlock [] ls) = []
        \/ (exists l rest', snd (collectBlock [] ls) = l :: rest'
                            /\ isNextDate l = true)
        \/ List.length (fst (collectBlock [] ls)) = 51%nat)
  /\ fst (collectBlock [] Inputs.sixtyLines) = repeat (lit "A 1") 51
  /\ snd (collectBlock [] Inputs.sixtyLines) = repeat (lit "A 1") 9
  /\ map description
         (transactions
            (parseBCAStatement 2025 (join [LF] (lit "01/01" :: Inputs.sixtyLines)) []))
     = [join [LF] (repeat (lit "A 1") 51)].
Proof.
  split; [intros ls; apply collectBlock_length; cbn; lia |].
  split; [intros ls; apply collectBlock_stop; cbn; lia |].
  split; [apply collect_sixty |]. split; [apply collect_sixty | apply parse_sixty].
Qed.

(** ** The normalizer *)

(** C3.  [parseAmount] on the test vectors of the specification, each
    result being the Number of the decimal literal the specification gives
    (1234567.89, 1234567.89, 1234.00, 50.5, 0); and on every token of
    digits, commas and periods with exactly one period and one comma the
    result is what [parseFloat] makes of the token with the period removed
    and the comma turned into a period ([x || 0] on top, as everywhere). *)
Theorem normalizer_vectors_and_mixed_rule :
  parseAmount (lit "1.234.567,89") = Num.ofDecimal 123456789 2
  /\ parseAmount (lit "1,234,567.89") = Num.ofDecimal 123456789 2
  /\ parseAmount (lit "1.234,00") = Num.ofDecimal 123400 2
  /\ parseAmount (lit "50,5") = Num.ofDecimal 505 1
  /\ parseAmount (lit "") = Num.zero
  /\ forall token,
       Forall (fun c => isAmountChar c = true) token ->
       countChar (ch ".") token = 1%nat ->
       countChar (ch ",") token = 1%nat ->
       parseAmount token =
       Num.orZero
         (parseFloat
            (map (fun c => if c =? ch "," then ch "." else c)
                 (filter (fun c => negb (c =? ch ".")) token))).
Proof.
  do 5 (split; [vm_compute; reflexivity |]).
  intros token Hall Hdots Hcommas.
  unfold parseAmount.
  destruct token as [| x token]; [discriminate |].
  rewrite (filter_all _ _ Hall), Hdots, Hcommas. cbn [Nat.ltb Nat.leb Nat.eqb andb].
  rewrite replaceAll_nil_filter.
  change (lit ".") with [ch "."].
  rewrite replaceFirst_single; [reflexivity |].
  rewrite countChar_filter_other by discriminate. exact Hcommas.
Qed.

Lemma normalizer_mixed_rule_witness :
  parseAmount (lit "1.234,00") = Num.orZero (parseFloat (lit "1234.00")).
Proof.
  apply (proj2 (proj2 (proj2 (proj2 (proj2 normalizer_vectors_and_mixed_rule))))
           (lit "1.234,00")).
  - repeat constructor.
  - reflexivity.
  - reflexivity.
Defined.

(** The Numbers of the vectors, bit for bit, and the mixed rule on a token
    in the other order. *)
Example normalizer_values :
  Num.ofDecimal 123456789 2 = S754_finite false 5302428712241725 (-32)
  /\ Num.ofDecimal 123400 2 = Num.ofZ 1234
  /\ Num.ofDecimal 505 1 = S754_finite false 7107243161944064 (-47)
  /\ Num.ofDecimal 1 1 = S754_finite false 7205759403792794 (-56)
  /\ parseAmount (lit "1,234.56") = Num.ofDecimal 123456 5.
Proof. repeat split. Qed.

(** ** Date lines *)

(** C4.  A line is a date boundary exactly when it is two digits, a slash
    and two digits with the day in 1..31 and the month in 1..12
    ([Spec.dateBoundary]); the seek test [dateOfLine] and the stop test
    [isNextDate] both decide this.  The scan returns the list as it is at
    the end of the lines; on a line that is no boundary it moves one line on
    and pushes nothing, and inside a block such a line never ends the block
    (only the cap does); on a boundary line it collects the block from the
    next line on, pushes what the block gives with the day and the month of
    the line, and goes on after the block, and inside a block a boundary line
    ends the block and is left to start the next.  So a boundary line
    followed by up to fifty lines that are no boundary, and then by the end
    of the text or another boundary line, has exactly those lines as its
    block; and a text with no boundary line gives no transaction. *)
Theorem date_line_is_block_boundary (line : str) :
  dateOfLine line = Spec.asNumbers (Spec.dateBoundary line)
  /\ isNextDate line =
     match Spec.dateBoundary line with Some _ => true | None => false end
  /\ (forall year txs, scan year [] txs = txs)
  /\ (forall year rest txs,
        Spec.dateBoundary line = None ->
        scan year (line :: rest) txs = scan year rest txs)
  /\ (forall year rest txs day mon,
        Spec.dateBoundary line = Some (day, mon) ->
        scan year (line :: rest) txs =
        scan year (snd (collectBlock [] rest))
             (pushBlock year (Some day) (Some mon) (fst (collectBlock [] rest)) txs))
  /\ (forall buffer rest,
        Spec.dateBoundary line = None ->
        collectBlock buffer (line :: rest) =
        if (50 <? List.length (buffer ++ [line]))%nat then (buffer ++ [line], rest)
        else collectBlock (buffer ++ [line]) rest)
  /\ (forall buffer rest,
        Spec.dateBoundary line <> None ->
        collectBlock buffer (line :: rest) = (buffer, line :: rest))
  /\ (forall year day mon block rest txs,
        Spec.dateBoundary line = Some (day, mon) ->
        Forall (fun l => Spec.dateBoundary l = None) block ->
        (List.length block <= 50)%nat ->
        rest = [] \/ (exists l rest', rest = l :: rest' /\ Spec.dateBoundary l <> None) ->
        scan year (line :: block ++ rest) txs =
        scan year rest (pushBlock year (Some day) (Some mon) block txs))
  /\ (forall currentYear text currency,
        Forall (fun l => Spec.dateBoundary l = None) (linesOf text) ->
        transactions (parseBCAStatement currentYear text currency) = []).
Proof.
  split; [apply dateOfLine_spec |].
  split; [apply isNextDate_spec |].
  split; [reflexivity |].
  split.
  { intros year rest txs H. apply scan_skip. rewrite dateOfLine_spec, H. reflexivity. }
  split.
  { intros year rest txs day mon H. apply scan_block.
    rewrite dateOfLine_spec, H. reflexivity. }
  split.
  { intros buffer rest H. cbn [collectBlock]. rewrite isNextDate_spec, H. reflexivity. }
  split.
  { intros buffer rest H. cbn [collectBlock]. rewrite isNextDate_spec.
    destruct (Spec.dateBoundary line); [reflexivity | none_ne_none H]. }
  split.
  { intros year day mon block rest txs H Hb Hlen Hrest.
    rewrite (scan_block year line (block ++ rest) txs (Some day) (Some mon))
      by (rewrite dateOfLine_spec, H; reflexivity).
    rewrite (collectBlock_block block [] rest); [reflexivity | | exact Hlen |].
    - eapply Forall_impl; [| exact Hb]. intros l Hl. cbv beta in Hl.
      rewrite isNextDate_spec, Hl. reflexivity.
    - destruct Hrest as [-> | (l & rest' & -> & Hl)]; [left; reflexivity |].
      right. exists l, rest'. split; [reflexivity |]. rewrite isNextDate_spec.
      destruct (Spec.dateBoundary l); [reflexivity | none_ne_none Hl]. }
  intros currentYear text currency H. unfold parseBCAStatement. cbn [transactions].
  apply scan_no_date. eapply Forall_impl; [| exact H].
  intros l Hl. cbv beta in Hl. rewrite dateOfLine_spec, Hl. reflexivity.
Qed.

(** A date line with a block, a line that only looks like a date, and a
    text without a date line. *)
Example date_boundary_in_the_parser :
  map date (transactions (parseBCAStatement 2025 (lit "31/12" ++ LF :: lit "BUNGA 5,00 CR") []))
  = [lit "2025-12-31"]
  /\ transactions (parseBCAStatement 2025 (lit "13/13" ++ LF :: lit "BUNGA 5,00 CR") []) = []
  /\ transactions (parseBCAStatement 2025 (lit "00/05" ++ LF :: lit "BUNGA 5,00 CR") []) = []
  /\ transactions (parseBCAStatement 2025 (lit "BUNGA 5,00 CR") []) = []
  /\ map (fun t => (date t, description t))
         (transactions
            (parseBCAStatement 2025
               (join [LF] (map lit ["05/01"; "A 1,00 DB"; "13/13"; "06/01"; "B 2,00 DB"]%string))
               []))
     = [(lit "2025-01-05", lit "A 1,00 DB" ++ LF :: lit "13/13");
        (lit "2025-01-06", lit "B 2,00 DB")].
Proof. vm_compute. repeat split. Qed.

Example date_boundary_examples :
  Spec.dateBoundary (lit "13/13") = None
  /\ Spec.dateBoundary (lit "00/05") = None
  /\ Spec.dateBoundary (lit "32/01") = None
  /\ Spec.dateBoundary (lit "5/01") = None
  /\ Spec.dateBoundary (lit "05/01/2025") = None
  /\ Spec.dateBoundary (lit "31/12") = Some (31, 12)%Z
  /\ Spec.dateBoundary (lit "01/01") = Some (1, 1)%Z
  /\ Spec.dateBoundary (lit "31/02") = Some (31, 2)%Z
  /\ dateOfLine (lit "13/13") = None
  /\ dateOfLine (lit "00/05") = None
  /\ dateOfLine (lit "31/12") = Some (Some 31, Some 12)%Z.
Proof. repeat split. Qed.

(** ** Transactions *)

Section ParserClaims.

Variable currentYear : Z.
Variables text currency : str.

(** C5.  Every transaction of a parse result has a strictly positive
    amount, the first kept amount of its block (the lines of its
    description); when [CR] occurs in the block as a whole word, in either
    case, the credit amount is that amount and the debit amount is 0, and
    otherwise the debit amount is that amount and the credit amount is 0.
    So exactly one of the two is nonzero. *)
Theorem polarity_is_exclusive :
  Forall
    (fun t =>
       exists amount rest,
         blockAmounts (join (lit " ") (splitOn LF (description t))) = amount :: rest
         /\ Num.ltb Num.zero amount = true
         /\ ((Spec.wholeWordCR (description t)
              /\ creditAmount t = amount /\ debitAmount t = Num.zero)
             \/ (~ Spec.wholeWordCR (description t)
                 /\ debitAmount t = amount /\ creditAmount t = Num.zero)))
    (transactions (parseBCAStatement currentYear text currency)).
Proof.
  unfold parseBCAStatement. cbn [transactions].
  eapply Forall_impl; [| apply scan_transactions, linesOf_noLF].
  intros t (day & mon & E).
  assert (Hdl : Forall Spec.noLF (splitOn LF (description t))) by apply splitOn_parts.
  destruct (processBlock_Some _ _ _ _ _ E) as (amount & rest & Ha & Hd & Hdeb & Hcred & _).
  exists amount, rest. split; [exact Ha |].
  split; [apply (blockAmounts_positive _ _ ltac:(rewrite Ha; left; reflexivity)) |].
  assert (Hcr : test true creditRe (join (lit " ") (splitOn LF (description t))) = true
                <-> Spec.wholeWordCR (description t)).
  { rewrite creditRe_test, (join_space _ Hdl), wholeWordCR_lfToSpace, <- Hd.
    reflexivity. }
  destruct (test true creditRe (join (lit " ") (splitOn LF (description t)))).
  - left. repeat split; try assumption. apply Hcr. reflexivity.
  - right. repeat split; try assumption. intros Hw. apply Hcr in Hw. discriminate.
Qed.

End ParserClaims.

(** C7.  The numeric tokens of a block are the maximal runs of digits,
    commas and periods of its lines joined by spaces, wherever they stand
    (the digit runs of a reference among them).  The kept amounts are the
    values [parseAmount] gives these tokens that are strictly between 0 and
    100,000,000,000, in order.  A block gives no transaction exactly when it
    holds a noise word, or its trimmed text has fewer than three characters,
    or no amount is kept.  A block that passes the two tests and has a kept
    amount gives one transaction: its amount (the debit or the credit
    amount, the other being 0) is the first kept amount, and its balance is
    the last kept amount when there are at least two and absent when there
    is one. *)
Theorem block_amount_and_balance (year day mon : jsint) (dl : list str) :
  blockAmounts (join (lit " ") dl) =
    filter Spec.strictlyBetween
           (map parseAmount (Spec.maximalRuns isAmountChar (join (lit " ") dl)))
  /\ Forall (fun amt => Num.ltb Num.zero amt = true
                        /\ Num.ltb amt (Num.ofDecimal 100000000000 0) = true)
            (blockAmounts (join (lit " ") dl))
  /\ (blockAmounts (join (lit " ") dl) = [] ->
      processBlock year day mon dl = None)
  /\ (processBlock year day mon dl = None <->
      test true headerRe (join [LF] dl) = true
      \/ (List.length (trim (join [LF] dl)) < 3)%nat
      \/ blockAmounts (join (lit " ") dl) = [])
  /\ (forall amount rest,
        test true headerRe (join [LF] dl) = false ->
        (3 <= List.length (trim (join [LF] dl)))%nat ->
        blockAmounts (join (lit " ") dl) = amount :: rest ->
        exists t,
          processBlock year day mon dl = Some t
          /\ pushBlock year day mon dl [] = [t]
          /\ (debitAmount t = amount /\ creditAmount t = Num.zero
              \/ creditAmount t = amount /\ debitAmount t = Num.zero)
          /\ balance t = match rest with
                         | [] => None
                         | _ :: _ => Some (last rest amount)
                         end)
  /\ (forall t, processBlock year day mon dl = Some t ->
      exists amount rest,
        blockAmounts (join (lit " ") dl) = amount :: rest
        /\ (debitAmount t = amount /\ creditAmount t = Num.zero
            \/ creditAmount t = amount /\ debitAmount t = Num.zero)
        /\ balance t = match rest with
                       | [] => None
                       | _ :: _ => Some (last rest amount)
                       end).
Proof.
  assert (Hsome : forall t, processBlock year day mon dl = Some t ->
            exists amount rest,
              blockAmounts (join (lit " ") dl) = amount :: rest
              /\ (debitAmount t = amount /\ creditAmount t = Num.zero
                  \/ creditAmount t = amount /\ debitAmount t = Num.zero)
              /\ balance t = match rest with
                             | [] => None
                             | _ :: _ => Some (last rest amount)
                             end).
  { intros t H. apply processBlock_Some in H.
    destruct H as (amount & rest & Ha & _ & Hd & Hc & Hb).
    exists amount, rest. repeat split; try assumption.
    destruct (test true creditRe (join (lit " ") dl)); auto. }
  split; [apply blockAmounts_spec |].
  split.
  { apply Forall_forall. intros amt H. apply blockAmounts_positive in H. exact H. }
  split; [apply processBlock_no_amount |].
  split; [apply processBlock_None |].
  split; [| exact Hsome].
  intros amount rest Hh Hl Ha.
  destruct (processBlock_emits year day mon dl amount rest Hh Hl Ha) as (t & Ht & _).
  exists t. split; [exact Ht |].
  split; [unfold pushBlock; rewrite Ht; reflexivity |].
  destruct (Hsome t Ht) as (amount' & rest' & Ha' & Hside & Hbal).
  rewrite Ha in Ha'. injection Ha' as <- <-. split; assumption.
Qed.

(** One kept amount: no balance.  Two: the second is the balance.  None,
    a noise word, a text too short: no transaction. *)
Example block_examples :
  option_map (fun t => (debitAmount t, balance t))
             (processBlock (Some 2025%Z) (Some 6%Z) (Some 1%Z) [lit "BIAYA ADMIN 10.000,00 DB"])
  = Some (Num.ofZ 10000, None)
  /\ option_map (fun t => (debitAmount t, balance t))
                (processBlock (Some 2025%Z) (Some 6%Z) (Some 1%Z)
                              [lit "BIAYA ADMIN"; lit "10.000,00 DB"; lit "1.490.000,00"])
     = Some (Num.ofZ 10000, Some (Num.ofZ 1490000))
  /\ processBlock (Some 2025%Z) (Some 6%Z) (Some 1%Z) [lit "BIAYA ADMIN"] = None
  /\ processBlock (Some 2025%Z) (Some 6%Z) (Some 1%Z) [lit "SALDO 10.000,00"] = None
  /\ processBlock (Some 2025%Z) (Some 6%Z) (Some 1%Z) [lit "12"] = None
  /\ blockAmounts (lit "0 0,00 100000000000 99.999.999.999,99 7")
     = [Num.ofDecimal 9999999999999 2; Num.ofZ 7].
Proof. vm_compute. repeat split. Qed.

(** The end-to-end scenario of the specification. *)
Example scenario_result :
  let parsed := parseBCAStatement 2030 Inputs.scenario (lit "IDR") in
  period parsed = lit "JANUARI 2025"
  /\ startDate parsed = lit "2025-01-01"
  /\ endDate parsed = lit "2025-01-31"
  /\ openingBalance parsed = Num.ofZ 1000000
  /\ map date (transactions parsed) = [lit "2025-01-05"; lit "2025-01-06"]
  /\ map creditAmount (transactions parsed) = [Num.ofZ 500000; Num.zero]
  /\ map debitAmount (transactions parsed) = [Num.zero; Num.ofZ 10000]
  /\ map balance (transactions parsed) = [None; Some (Num.ofZ 1490000)]
  /\ totalCredits parsed = Num.ofZ 500000
  /\ totalDebits parsed = Num.ofZ 10000.
Proof. vm_compute. repeat split. Qed.

(** ** Determinism *)

(** C9.  With the same text and currency, two runs of the parser give the
    same statement whenever the clock gives them the same year or the text
    holds a period marker. *)
Theorem parse_is_deterministic (year1 year2 : Z) (text currency : str) :
  year1 = year2 \/ search true periodRe text <> None ->
  parseBCAStatement year1 text currency = parseBCAStatement year2 text currency.
Proof.
  intros [-> | H]; [reflexivity |].
  unfold parseBCAStatement.
  destruct (search true periodRe text) as [m |]; [reflexivity | none_ne_none H].
Qed.

Lemma parse_is_deterministic_witness :
  parseBCAStatement 1999 Inputs.scenario [] = parseBCAStatement 2030 Inputs.scenario [].
Proof.
  apply parse_is_deterministic. right. vm_compute. discriminate.
Defined.

(** Without a period marker the year of the clock shows in the result. *)
Example parse_depends_on_clock :
  startDate (parseBCAStatement 2025 (lit "05/01") []) = lit "2025-01-01"
  /\ startDate (parseBCAStatement 2026 (lit "05/01") []) = lit "2026-01-01".
Proof. split; reflexivity. Qed.

(** ** The extractor *)

Lemma decodeByte_pair (a b : char) :
  isHexDigit a = true -> isHexDigit b = true ->
  decodeByte (parseInt [a; b] (Some 16)) =
  Spec.keptByte (16 * Spec.hexVal a + Spec.hexVal b).
Proof.
  intros Ha Hb. each_hex Ha; each_hex Hb; vm_compute; reflexivity.
Qed.

Lemma decodeHex_spec (hexStr : str) :
  Forall (fun c => isHexDigit c = true) hexStr ->
  decodeHex hexStr = Spec.decodeRun hexStr.
Proof.
  induction hexStr as [hexStr IH] using (induction_ltof1 _ (@List.length char)).
  unfold ltof in IH. intros H.
  destruct hexStr as [| a [| b hexStr']]; try reflexivity.
  inversion H as [| ? ? Ha H']; subst. inversion H' as [| ? ? Hb H'']; subst.
  cbn [decodeHex Spec.decodeRun].
  rewrite decodeByte_pair by assumption. f_equal.
  apply IH; [cbn; lia | assumption].
Qed.

Lemma hexRuns_are_hex (raw : str) :
  Forall (fun h => Forall (fun c => isHexDigit c = true) h) (hexRuns raw).
Proof.
  unfold hexRuns, execAll. apply Forall_forall. intros h Hin.
  apply in_map_iff in Hin. destruct Hin as (m & <- & Hm).
  apply execAllFrom_In in Hm. destruct Hm as (prev' & s' & Hm).
  apply delimited_group in Hm; [apply Hm |].
  intros x Hx. each_hex Hx; reflexivity.
Qed.

(** Method 2 collects the decodings of the even-length runs that are not
    blank. *)
Lemma hexBlocks_spec (raw : str) :
  hexBlocks raw =
  filter (fun b => negb (Spec.isBlank b))
         (map Spec.decodeRun (filter Spec.evenLength (hexRuns raw))).
Proof.
  pose proof (hexRuns_are_hex raw) as Hh. unfold hexBlocks, hexRuns in *.
  induction (execAll false hexPattern raw) as [| m ms IH]; [reflexivity |].
  cbn [map] in Hh. inversion Hh as [| ? ? Hm Hms]; subst.
  cbn [flat_map map filter]. rewrite (IH Hms).
  change (Nat.even (List.length (grp 1 m))) with (Spec.evenLength (grp 1 m)).
  destruct (Spec.evenLength (grp 1 m)); [| reflexivity].
  cbn [map filter]. rewrite (decodeHex_spec _ Hm).
  pose proof (trim_nil (Spec.decodeRun (grp 1 m))) as Ht.
  destruct (trim (Spec.decodeRun (grp 1 m))) as [| c r].
  - rewrite (proj1 Ht eq_refl). reflexivity.
  - destruct (Spec.isBlank (Spec.decodeRun (grp 1 m))); [| reflexivity].
    destruct Ht as [_ Ht]. discriminate (Ht eq_refl).
Qed.

(** C8, as the specification states it, fails on the document [<20>]:
    Method 1 finds nothing, the one hex run [20] has even length and
    decodes to a space, a printable byte, so the stated text is one space;
    the extractor returns the empty text, because it leaves out a decoded
    block that [trim] empties. *)
Lemma blank_hex_block_is_not_collected :
  literalBlocks (decodeUtf8 Inputs.blankPdf) = []
  /\ hexRuns (decodeUtf8 Inputs.blankPdf) = [lit "20"]
  /\ Spec.statedHexText (hexRuns (decodeUtf8 Inputs.blankPdf)) = lit " "
  /\ extractTextFromPDF Inputs.blankPdf = []
  /\ extractTextFromPDF Inputs.blankPdf
     <> Spec.statedHexText (hexRuns (decodeUtf8 Inputs.blankPdf)).
Proof. repeat split; try (vm_compute; reflexivity). vm_compute. discriminate. Qed.

(** C8, amended.  On every byte input the extractor returns a text, and so
    does the handler on the path that calls it.  When Method 1 finds a block
    the text is the blocks of Method 1 joined by line breaks, and Method 2
    is not used.  When it finds none the text is, joined by line breaks, the
    decodings of the even-length hex runs that are not empty or white space
    only, a decoding keeping the bytes 32..126 as they are, turning byte 10
    into a line break and dropping every other byte.  When no block is
    collected the text is empty. *)
Theorem extractor_strategies (pdfData : list Byte.byte) :
  (forall maxArguments openaiKey reply,
      acquireText maxArguments false false openaiKey reply pdfData
      = Ok (extractTextFromPDF pdfData))
  /\ (literalBlocks (decodeUtf8 pdfData) <> [] ->
      extractTextFromPDF pdfData = join [LF] (literalBlocks (decodeUtf8 pdfData)))
  /\ (literalBlocks (decodeUtf8 pdfData) = [] ->
      extractTextFromPDF pdfData =
      join [LF]
           (filter (fun b => negb (Spec.isBlank b))
                   (map Spec.decodeRun
                        (filter Spec.evenLength (hexRuns (decodeUtf8 pdfData))))))
  /\ (literalBlocks (decodeUtf8 pdfData) = [] ->
      hexBlocks (decodeUtf8 pdfData) = [] ->
      extractTextFromPDF pdfData = []).
Proof.
  split; [reflexivity |].
  unfold extractTextFromPDF.
  destruct (literalBlocks (decodeUtf8 pdfData)) as [| b bs] eqn:E.
  - split; [intros H; none_ne_none H |].
    split; [intros _; now rewrite hexBlocks_spec |].
    intros _ ->. reflexivity.
  - split; [reflexivity |]. split; discriminate.
Qed.

Example extractor_examples :
  extractTextFromPDF (list_byte_of_string "BT (Hello\n) Tj <41> ET")
  = lit "Hello" ++ [LF]
  /\ extractTextFromPDF (list_byte_of_string "<48656C6C6F0A21> <4> <7F41>")
     = lit "Hello" ++ [LF] ++ lit "!" ++ [LF] ++ lit "A"
  /\ extractTextFromPDF Inputs.blankThenLetterPdf = lit "A"
  /\ Spec.statedHexText (hexRuns (decodeUtf8 Inputs.blankThenLetterPdf))
     = lit " " ++ [LF] ++ lit "A"
  /\ extractTextFromPDF [] = [].
Proof. vm_compute. repeat split. Qed.

(** ** The recognition path *)

(** C10.  The adapter returns a transcription exactly when the file is
    within what one call takes as arguments and the reply holds a
    transcription of at least 50 characters.  On the recognition path, with
    a key configured, the handler answers 400 with its own message for
    every transcription of fewer than 100 characters the adapter returned;
    so for every file the adapter can send, every transcription of 50 to 99
    characters is accepted by the adapter and fails the upload.  A file
    beyond that size fails before the request is made, whatever the service
    would answer. *)
Theorem ocr_text_under_100_fails_upload :
  (forall maxArguments fileData reply text,
      extractTextWithOpenAI maxArguments fileData reply = Ok text <->
      (List.length fileData <= maxArguments)%nat
      /\ reply = Body (Some (Some text)) /\ (50 <= List.length text)%nat)
  /\ (forall currentYear maxArguments isImageFile useOCR key reply pdfData currency text,
         isImageFile || useOCR = true ->
         key <> [] ->
         extractTextWithOpenAI maxArguments pdfData reply = Ok text ->
         (List.length text < 100)%nat ->
         handleUpload currentYear maxArguments isImageFile useOCR (Some key) reply
                      pdfData currency
         = ErrorResponse 400 Inputs.ocrRejected)
  /\ (forall currentYear maxArguments isImageFile useOCR key pdfData currency text,
         isImageFile || useOCR = true ->
         key <> [] ->
         (List.length pdfData <= maxArguments)%nat ->
         (50 <= List.length text < 100)%nat ->
         extractTextWithOpenAI maxArguments pdfData (Body (Some (Some text))) = Ok text
         /\ handleUpload currentYear maxArguments isImageFile useOCR (Some key)
                         (Body (Some (Some text))) pdfData currency
            = ErrorResponse 400 Inputs.ocrRejected)
  /\ (forall currentYear maxArguments isImageFile useOCR key reply pdfData currency,
         isImageFile || useOCR = true ->
         key <> [] ->
         (maxArguments < List.length pdfData)%nat ->
         handleUpload currentYear maxArguments isImageFile useOCR (Some key) reply
                      pdfData currency
         = ErrorResponse 400 (lit "Maximum call stack size exceeded")).
Proof.
  assert (A : forall maxArguments fileData reply text,
             extractTextWithOpenAI maxArguments fileData reply = Ok text <->
             (List.length fileData <= maxArguments)%nat
             /\ reply = Body (Some (Some text)) /\ (50 <= List.length text)%nat).
  { intros maxArguments fileData reply text. unfold extractTextWithOpenAI.
    destruct (Nat.ltb_spec maxArguments (List.length fileData)) as [Hm | Hm].
    { split; [discriminate | intros [H _]; lia]. }
    split.
    - destruct reply as [msg | err | [[t |] |]]; try discriminate.
      + destruct (_ || _); discriminate.
      + destruct (Nat.eqb_spec (List.length t) 0) as [H0 | H0]; cbn [orb];
          [discriminate |].
        destruct (Nat.ltb_spec (List.length t) 50) as [H50 | H50]; [discriminate |].
        intros E. injection E as ->. auto.
    - intros (_ & -> & H).
      destruct (Nat.eqb_spec (List.length text) 0); [lia |]. cbn [orb].
      destruct (Nat.ltb_spec (List.length text) 50); [lia |]. reflexivity. }
  assert (B : forall currentYear maxArguments isImageFile useOCR key reply pdfData
                     currency text,
             isImageFile || useOCR = true ->
             key <> [] ->
             extractTextWithOpenAI maxArguments pdfData reply = Ok text ->
             (List.length text < 100)%nat ->
             handleUpload currentYear maxArguments isImageFile useOCR (Some key) reply
                          pdfData currency
             = ErrorResponse 400 Inputs.ocrRejected).
  { intros cy ma img ocr key reply pdf cur text Hocr Hkey Hok Hlen.
    unfold handleUpload, acquireText. rewrite Hocr, Hok.
    destruct key as [| k key]; [congruence |].
    destruct (Nat.ltb_spec (List.length text) 100); [reflexivity | lia]. }
  split; [exact A |]. split; [exact B |].
  split.
  - intros cy ma img ocr key pdf cur text Hocr Hkey Hfit Hlen.
    assert (Hok : extractTextWithOpenAI ma pdf (Body (Some (Some text))) = Ok text)
      by (apply A; repeat split; [exact Hfit | lia]).
    split; [exact Hok |]. apply (B cy ma img ocr key _ pdf cur text); auto. lia.
  - intros cy ma img ocr key reply pdf cur Hocr Hkey Hbig.
    unfold handleUpload, acquireText, extractTextWithOpenAI. rewrite Hocr.
    destruct key as [| k key]; [congruence |].
    destruct (Nat.ltb_spec ma (List.length pdf)); [reflexivity | lia].
Qed.

Lemma ocr_sixty_chars_witness :
  extractTextWithOpenAI 1024 [] (Body (Some (Some Inputs.sixtyChars)))
  = Ok Inputs.sixtyChars
  /\ handleUpload 2025 1024 true false (Some (lit "sk"))
                  (Body (Some (Some Inputs.sixtyChars))) [] (lit "IDR")
     = ErrorResponse 400 Inputs.ocrRejected.
Proof.
  apply (proj1 (proj2 (proj2 ocr_text_under_100_fails_upload))).
  - reflexivity.
  - discriminate.
  - cbn. lia.
  - vm_compute. split; lia.
Defined.

(** A file of more bytes than a call takes arguments: the handler answers
    with the error of the engine, and the reply of the service plays no
    part. *)
Example ocr_file_too_large :
  handleUpload 2025 3 true false (Some (lit "sk"))
               (Body (Some (Some Inputs.sixtyChars)))
               (list_byte_of_string "%PDF")
               (lit "IDR")
  = ErrorResponse 400 (lit "Maximum call stack size exceeded").
Proof. reflexivity. Qed.

(** ** The Number model against the prover's own floats *)

Import PrimFloat FloatOps.

(** [Num.ofDecimal] and [Num.ofZ] give, on the values the claims name, the
    binary64 value the prover's own reading of the same literal gives; so
    does one addition. *)
#[warnings="-inexact-float"]
Example ofDecimal_agrees_with_literals :
  Num.ofDecimal 123456789 2 = Prim2SF 1234567.89
  /\ Num.ofDecimal 505 1 = Prim2SF 50.5
  /\ Num.ofDecimal 1 1 = Prim2SF 0.1
  /\ Num.ofDecimal 50000000 2 = Prim2SF 500000.00
  /\ Num.ofDecimal 1000000000 2 = Prim2SF 10000000.00
  /\ Num.ofZ 100000000000 = Prim2SF 100000000000
  /\ Num.ofZ 211 = Prim2SF 211
  /\ Num.add (Num.ofDecimal 1 1) (Num.ofDecimal 2 1) = Prim2SF (0.1 + 0.2)
  /\ Num.ofDecimal 99999999999999999999 9 = Prim2SF 99999999999.999999999.
Proof. vm_compute. repeat split. Qed.

(** ** The totals *)

(** C6, as the specification states it, fails on a statement with three
    debits of 0.10, 0.20 and 0.30: the total of the code is
    0.6000000000000001, which is neither the exact sum of the three amounts
    nor the Number nearest to 0.60. *)
Lemma totals_are_not_exact_sums :
  map debitAmount (transactions (parseBCAStatement 2025 Inputs.tenths []))
  = [Num.ofDecimal 10 2; Num.ofDecimal 20 2; Num.ofDecimal 30 2]
  /\ totalDebits (parseBCAStatement 2025 Inputs.tenths [])
     = Num.ofDecimal 6000000000000001 16
  /\ totalDebits (parseBCAStatement 2025 Inputs.tenths []) <> Num.ofDecimal 60 2
  /\ Spec.isExactSum
       (totalDebits (parseBCAStatement 2025 Inputs.tenths []))
       (map debitAmount (transactions (parseBCAStatement 2025 Inputs.tenths [])))
     = false.
Proof.
  split; [vm_compute; reflexivity |].
  split; [vm_compute; reflexivity |].
  split; [vm_compute; discriminate | vm_compute; reflexivity].
Qed.

(** C6, amended.  The totals of a parse result are computed from its
    transaction list alone: each is the sum of the debit amounts, or of the
    credit amounts, in the order of the list, starting from 0 and adding one
    amount at a time in binary64 arithmetic, every addition rounding to the
    nearest Number as the addition of the machine does.  So 0.10, 0.20 and
    0.30 add up to 0.6000000000000001, and 500000, 0 and 10.50 to
    500010.50. *)
Theorem totals_are_running_sums (currentYear : Z) (text currency : str) :
  totalDebits (parseBCAStatement currentYear text currency)
  = Num.sum (map debitAmount
                 (transactions (parseBCAStatement currentYear text currency)))
  /\ totalCredits (parseBCAStatement currentYear text currency)
     = Num.sum (map creditAmount
                    (transactions (parseBCAStatement currentYear text currency)))
  /\ Num.sum [] = Num.zero
  /\ (forall xs x, Num.sum (xs ++ [x]) = Num.add (Num.sum xs) x)
  /\ (forall x y : float, Num.add (Prim2SF x) (Prim2SF y) = Prim2SF (x + y))
  /\ Num.sum [Num.ofDecimal 10 2; Num.ofDecimal 20 2; Num.ofDecimal 30 2]
     = Num.ofDecimal 6000000000000001 16
  /\ Num.sum [Num.ofZ 500000; Num.zero; Num.ofDecimal 1050 2]
     = Num.ofDecimal 50001050 2.
Proof.
  split; [unfold parseBCAStatement, Num.sum; cbn [totalDebits transactions];
          apply fold_add_map |].
  split; [unfold parseBCAStatement, Num.sum; cbn [totalCredits transactions];
          apply fold_add_map |].
  split; [reflexivity |].
  split; [intros xs x; unfold Num.sum; apply fold_left_app |].
  split; [intros x y; symmetry; apply FloatAxioms.add_spec |].
  split; vm_compute; reflexivity.
Qed.

(** The same sums as the prover's own floats compute them. *)
#[warnings="-inexact-float"]
Example running_sums_agree_with_machine :
  Num.sum [Num.ofDecimal 10 2; Num.ofDecimal 20 2; Num.ofDecimal 30 2]
  = Prim2SF (0.1 + 0.2 + 0.3)
  /\ Num.ofDecimal 6000000000000001 16 = Prim2SF 0.6000000000000001
  /\ Num.ofDecimal 60 2 = Prim2SF 0.6
  /\ Num.sum [Num.ofZ 500000; Num.zero; Num.ofDecimal 1050 2]
     = Prim2SF (500000 + 0 + 10.5).
Proof. vm_compute. repeat split. Qed.
